(** * Router: route descriptors, route table, matcher and reverse router

    A shallow embedding of [router.go] (package revel) and the properties
    of its routing core.

    Conventions of the embedding:
    - Go [string] is [string] (a sequence of bytes); Go [int] is [Z].
    - A Go panic (index or slice out of range) is the [Panic] result.
    - [map[string]T] is [gmap string T]; a nil map reads like the empty one.
    - Writes to the loggers (ERROR, INFO, WARN) are not part of the model;
      the places where the source logs are marked in comments. *)

From Stdlib Require Import ZArith Ascii String List Lia DecimalString Sorted.
From stdpp Require Import base option list gmap strings.

Local Open Scope Z_scope.

(** ** Results of code that may panic *)

Inductive result (A : Type) : Type :=
| Ok (a : A)
| Panic (msg : string).
Arguments Ok {A} a.
Arguments Panic {A} msg.

Definition bind {A B : Type} (r : result A) (k : A -> result B) : result B :=
  match r with
  | Ok a => k a
  | Panic msg => Panic msg
  end.

Notation "'let*' x ':=' r 'in' k" := (bind r (fun x => k))
  (at level 10, x name, r at level 100, k at level 200).

Definition is_panic {A : Type} (r : result A) : Prop :=
  match r with Panic _ => True | Ok _ => False end.

(** ** The functions of Go's [strings] package that the router calls,
    on byte strings. *)

Module Strings.

Definition len (s : string) : Z := Z.of_nat (String.length s).

(** [s[:j]] and [s[i:]] without the bounds check. *)
Fixpoint take (n : nat) (s : string) : string :=
  match n, s with
  | S n', String c s' => String c (take n' s')
  | _, _ => EmptyString
  end.

Fixpoint drop (n : nat) (s : string) : string :=
  match n, s with
  | S n', String _ s' => drop n' s'
  | _, _ => s
  end.

#[global] Arguments take : simpl nomatch.
#[global] Arguments drop : simpl nomatch.

(** [s[:j]]: panics unless [0 <= j <= len(s)]. *)
Definition slice_to (s : string) (j : Z) : result string :=
  if (0 <=? j) && (j <=? len s) then Ok (take (Z.to_nat j) s)
  else Panic "slice bounds out of range".

(** [s[i:]]: panics unless [0 <= i <= len(s)]. *)
Definition slice_from (s : string) (i : Z) : result string :=
  if (0 <=? i) && (i <=? len s) then Ok (drop (Z.to_nat i) s)
  else Panic "slice bounds out of range".

(** [strings.HasPrefix(s, prefix)]. *)
Fixpoint HasPrefix (s prefix : string) {struct prefix} : bool :=
  match prefix, s with
  | EmptyString, _ => true
  | String a prefix', String b s' => Ascii.eqb a b && HasPrefix s' prefix'
  | String _ _, EmptyString => false
  end.

(** [strings.Index(s, sep)] and [strings.LastIndex(s, sep)] for a
    one-byte separator: the byte offset of the first (last) occurrence,
    or -1. *)
Fixpoint index_nat (s : string) (sep : ascii) : option nat :=
  match s with
  | EmptyString => None
  | String c s' =>
      if Ascii.eqb c sep then Some O
      else match index_nat s' sep with
           | Some i => Some (S i)
           | None => None
           end
  end.

Fixpoint last_index_nat (s : string) (sep : ascii) : option nat :=
  match s with
  | EmptyString => None
  | String c s' =>
      match last_index_nat s' sep with
      | Some i => Some (S i)
      | None => if Ascii.eqb c sep then Some O else None
      end
  end.

Definition Index (s : string) (sep : ascii) : Z :=
  match index_nat s sep with Some i => Z.of_nat i | None => -1 end.

Definition LastIndex (s : string) (sep : ascii) : Z :=
  match last_index_nat s sep with Some i => Z.of_nat i | None => -1 end.

(** [strings.Split(s, sep)] for a one-byte separator: [s] is cut at
    every occurrence of [sep]; the result is never empty. *)
Fixpoint Split (s : string) (sep : ascii) : list string :=
  match s with
  | EmptyString => [EmptyString]
  | String c s' =>
      if Ascii.eqb c sep then EmptyString :: Split s' sep
      else match Split s' sep with
           | hd :: tl => String c hd :: tl
           | [] => [String c EmptyString]
           end
  end.

(** [strings.Join(elems, sep)]. *)
Definition Join (elems : list string) (sep : string) : string :=
  String.concat sep elems.

(** [strings.ToUpper] on the ASCII letters (the method keywords of the
    route grammar are ASCII). *)
Definition upper_byte (c : ascii) : ascii :=
  let n := nat_of_ascii c in
  if (97 <=? n)%nat && (n <=? 122)%nat then ascii_of_nat (n - 32) else c.

Fixpoint ToUpper (s : string) : string :=
  match s with
  | EmptyString => EmptyString
  | String c s' => String (upper_byte c) (ToUpper s')
  end.

(** [strings.TrimSpace] on the ASCII white space bytes. *)
Definition is_space (c : ascii) : bool :=
  let n := nat_of_ascii c in
  ((9 <=? n)%nat && (n <=? 13)%nat) || (n =? 32)%nat.

Fixpoint trim_left (s : string) : string :=
  match s with
  | String c s' => if is_space c then trim_left s' else s
  | EmptyString => EmptyString
  end.

Fixpoint trim_right (s : string) : string :=
  match s with
  | EmptyString => EmptyString
  | String c s' =>
      match trim_right s' with
      | EmptyString => if is_space c then EmptyString else String c EmptyString
      | t => String c t
      end
  end.

Definition TrimSpace (s : string) : string := trim_right (trim_left s).

(** Number of occurrences of a byte. *)
Fixpoint count (s : string) (c : ascii) : nat :=
  match s with
  | EmptyString => O
  | String a s' => ((if Ascii.eqb a c then 1 else 0) + count s' c)%nat
  end.

End Strings.

(** ** encoding/csv: reading one record

    [NewRoute] reads the fixed arguments with [csv.NewReader(...).Read()].
    The reader is Go's standard library; this is its record grammar with
    the default settings (comma separator, no lazy quotes): fields are
    separated by commas, a field that starts with a quote runs to the
    closing quote, inside it a doubled quote stands for one quote, and a
    quote anywhere else is an error.  Empty lines before the record are
    skipped, and an input with no record gives [io.EOF]. *)

Module csv.

Definition quote : ascii := "034"%char.
Definition comma : ascii := ","%char.
Definition nl : ascii := "010"%char.
Definition cr : ascii := "013"%char.

Inductive state := FieldStart | Unquoted | Quoted | QuoteSeen.

Inductive outcome :=
| Record_ (fields : list string)
| EOF
| ParseError.

(** The line ends at [c]: a newline, or a carriage return right before
    a newline or the end of the input. *)
Definition ends_line (c : ascii) (rest : string) : bool :=
  Ascii.eqb c nl ||
  (Ascii.eqb c cr &&
     match rest with
     | EmptyString => true
     | String d _ => Ascii.eqb d nl
     end).

Definition push (c : ascii) (r : option (list string)) : option (list string) :=
  match r with
  | Some (f :: fs) => Some (String c f :: fs)
  | _ => None
  end.

Definition next_field (r : option (list string)) : option (list string) :=
  match r with
  | Some fs => Some (EmptyString :: fs)
  | None => None
  end.

(** The fields from the current position on; the head of the result is
    what remains of the field being read. *)
Fixpoint parse (st : state) (s : string) : option (list string) :=
  match s with
  | EmptyString =>
      match st with
      | Quoted => None
      | _ => Some [EmptyString]
      end
  | String c s' =>
      match st with
      | FieldStart | Unquoted =>
          if (match st with FieldStart => Ascii.eqb c quote | _ => false end)
          then parse Quoted s'
          else if Ascii.eqb c comma then next_field (parse FieldStart s')
          else if ends_line c s' then Some [EmptyString]
          else if Ascii.eqb c quote then None
          else push c (parse Unquoted s')
      | Quoted =>
          if Ascii.eqb c quote then parse QuoteSeen s'
          else if Ascii.eqb c cr && ends_line c s' then parse Quoted s'
          else push c (parse Quoted s')
      | QuoteSeen =>
          if Ascii.eqb c quote then push quote (parse Quoted s')
          else if Ascii.eqb c comma then next_field (parse FieldStart s')
          else if ends_line c s' then Some [EmptyString]
          else None
      end
  end.

Fixpoint Read (s : string) : outcome :=
  match s with
  | EmptyString => EOF
  | String c s' =>
      if ends_line c s' then Read s'
      else match parse FieldStart s with
           | Some fs => Record_ fs
           | None => ParseError
           end
  end.

End csv.

(** ** regexp: the fragment of the regular expressions that
    [routePattern] is written in, with Go's leftmost-first matching
    (alternatives in order, greedy repetition, backtracking). *)

Module regexp.

Inductive re :=
| Lit (s : string)             (* a literal, letters matched in either case *)
| Class (p : ascii -> bool)    (* one byte of a class *)
| Star (p : ascii -> bool)     (* [c*] for a class c, greedy *)
| Plus (p : ascii -> bool)     (* [c+] for a class c, greedy *)
| Opt (r : re)                 (* [r?], greedy *)
| Alt (r1 r2 : re)             (* [r1|r2], the left one first *)
| Seq (r1 r2 : re)
| Group (n : nat) (r : re).    (* capturing group number n *)

Definition captures := list (nat * string).

Fixpoint submatch (caps : captures) (n : nat) : string :=
  match caps with
  | [] => EmptyString
  | (m, s) :: caps' => if (m =? n)%nat then s else submatch caps' n
  end.

Fixpoint strip_lit (l s : string) : option string :=
  match l, s with
  | EmptyString, _ => Some s
  | String a l', String b s' =>
      if Ascii.eqb (Strings.upper_byte a) (Strings.upper_byte b)
      then strip_lit l' s' else None
  | String _ _, EmptyString => None
  end.

Definition or_else {A : Type} (x y : option A) : option A :=
  match x with Some _ => x | None => y end.

Fixpoint star {A : Type} (p : ascii -> bool) (s : string)
         (k : string -> option A) : option A :=
  match s with
  | String c s' => if p c then or_else (star p s' k) (k s) else k s
  | EmptyString => k s
  end.

(** What [r] consumed between the input [s] and the rest [s']. *)
Definition consumed (s s' : string) : string :=
  Strings.take (String.length s - String.length s') s.

Fixpoint run (r : re) (s : string) (caps : captures)
         (k : string -> captures -> option captures) : option captures :=
  match r with
  | Lit l =>
      match strip_lit l s with
      | Some s' => k s' caps
      | None => None
      end
  | Class p =>
      match s with
      | String c s' => if p c then k s' caps else None
      | EmptyString => None
      end
  | Star p => star p s (fun s' => k s' caps)
  | Plus p =>
      match s with
      | String c s' => if p c then star p s' (fun s'' => k s'' caps) else None
      | EmptyString => None
      end
  | Opt r1 => or_else (run r1 s caps k) (k s caps)
  | Alt r1 r2 => or_else (run r1 s caps k) (run r2 s caps k)
  | Seq r1 r2 => run r1 s caps (fun s' caps' => run r2 s' caps' k)
  | Group n r1 =>
      run r1 s caps (fun s' caps' => k s' ((n, consumed s s') :: caps'))
  end.

(** [^r$] against the whole of [s]. *)
Definition match_whole (r : re) (s : string) : option captures :=
  run r s [] (fun s' caps =>
                match s' with EmptyString => Some caps | _ => None end).

End regexp.

(** ** The prefix tree (package pathtree)

    The router keeps its rules in a [pathtree.Node] and calls [New],
    [Add], [Find] and [Reverse] on it, and reads [Value] and [Wildcards]
    of a leaf and [Name] of a wildcard.  The package is imported; its
    source is not part of the repository.  Every definition of this
    module is modelled from what the spec says of the tree: a
    segment-based prefix tree keyed by method+path, with literal
    segments, named placeholders and a trailing catch-all, in which the
    first registered rule that matches wins, and which can rebuild a
    path from a leaf and argument values. *)

Module pathtree.

(** Modelled from the spec: an entry of [leaf.Wildcards], of which the
    router reads the placeholder's [Name]. *)
Record Wildcard := mkWildcard { Name : string }.

(** Modelled from the spec: a leaf of the tree, with the two fields the
    router reads, the value registered and the placeholders of its key
    in order, and the key's segments, from which [Reverse] rebuilds the
    path. *)
Record Leaf (V : Type) := mkLeaf {
  Value : V;
  Wildcards : list Wildcard;
  elements : list string;
}.
Arguments mkLeaf {V}.
Arguments Value {V}.
Arguments Wildcards {V}.
Arguments elements {V}.

(** Modelled from the spec: the tree type of package pathtree.  The
    model keeps the registered leaves in registration order, which is
    what a first-match-wins lookup observes of the tree. *)
Record Node (V : Type) := mkNode {
  leaves : list (Leaf V);
}.
Arguments mkNode {V}.
Arguments leaves {V}.

(** Modelled from the spec: [New] of package pathtree, the empty tree. *)
Definition New {V : Type} : Node V := mkNode [].

(** Modelled from the spec: a segment [:name] is a named placeholder. *)
Definition is_colon (el : string) : bool :=
  match el with String c _ => Ascii.eqb c ":"%char | EmptyString => false end.

(** Modelled from the spec: a segment [*name] is a catch-all. *)
Definition is_star (el : string) : bool :=
  match el with String c _ => Ascii.eqb c "*"%char | EmptyString => false end.

(** Modelled from the spec: a key is slash-delimited and begins with a
    slash, which starts the first segment. *)
Definition drop_first_empty (els : list string) : list string :=
  match els with
  | EmptyString :: els' => els'
  | _ => els
  end.

(** Modelled from the spec: a slash at the end of a key ends the last
    segment and starts no other. *)
Fixpoint drop_last_empty (els : list string) : list string :=
  match els with
  | [] => []
  | [EmptyString] => []
  | el :: els' => el :: drop_last_empty els'
  end.

(** Modelled from the spec: the segments of a slash-delimited key. *)
Definition splitPath (key : string) : list string :=
  drop_last_empty (drop_first_empty (Strings.Split key "/"%char)).

(** Modelled from the spec: the catch-all is trailing; the segments of a
    pattern are those up to its catch-all, if it has one. *)
Fixpoint pattern (els : list string) : list string :=
  match els with
  | [] => []
  | el :: els' => if is_star el then [el] else el :: pattern els'
  end.

(** Modelled from the spec: the placeholders of a pattern, in order. *)
Definition wildcards (els : list string) : list Wildcard :=
  omap (fun el => if is_colon el || is_star el
                  then Some (mkWildcard (Strings.drop 1 el)) else None) els.

(** Modelled from the spec: the place of a pattern in the tree.  Two
    patterns with the same literal segments and with placeholders in the
    same places are registrations at the same key. *)
Definition shape (els : list string) : list string :=
  (fun el => if is_colon el then ":" else if is_star el then "*" else el)
    <$> els.

(** Modelled from the spec: the segments [els] of a request key against
    the segments [pat] of a registered key.  A literal segment matches
    itself, a named placeholder [:name] matches any one segment, a
    trailing catch-all [*name] matches all the segments that remain (at
    least one); the result is the captured values in order. *)
Fixpoint matchElems (pat els : list string) : option (list string) :=
  match pat, els with
  | [], [] => Some []
  | p :: pat', e :: els' =>
      if is_star p then Some [Strings.Join els "/"]
      else if is_colon p then cons e <$> matchElems pat' els'
      else if String.eqb p e then matchElems pat' els'
      else None
  | _, _ => None
  end.

(** Modelled from the spec: the first registered leaf that matches. *)
Fixpoint find {V : Type} (ls : list (Leaf V)) (els : list string)
  : option (Leaf V * list string) :=
  match ls with
  | [] => None
  | l :: ls' =>
      match matchElems (elements l) els with
      | Some exps => Some (l, exps)
      | None => find ls' els
      end
  end.

(** Modelled from the spec: a key begins with a slash. *)
Definition rooted (key : string) : bool :=
  match key with String c _ => Ascii.eqb c "/"%char | EmptyString => false end.

(** Modelled from the spec: [Find] of package pathtree.  The winning
    leaf of a lookup is the first registered one that matches
    (first-match-wins); with it come the wildcard-segment values it
    captured. *)
Definition Find {V : Type} (n : Node V) (key : string)
  : option (Leaf V * list string) :=
  if rooted key then find (leaves n) (splitPath key) else None.

(** Modelled from the spec: [Add] of package pathtree.  It returns the
    tree after the call, the new leaf and the error.  A key must begin
    with a slash and have no empty segment, and a registration at the
    key of an earlier one is a conflict. *)
Definition Add {V : Type} (n : Node V) (key : string) (val : V)
  : Node V * option (Leaf V) * option string :=
  if negb (rooted key) then (n, None, Some "Path must begin with /")
  else
    let els := pattern (splitPath key) in
    if existsb (String.eqb EmptyString) els
    then (n, None, Some "empty path elements are not allowed")
    else if existsb (fun l => bool_decide (shape (elements l) = shape els))
                    (leaves n)
    then (n, None, Some "duplicate path")
    else
      let l := mkLeaf val (wildcards els) els in
      (mkNode (leaves n ++ [l]), Some l, None).

(** Modelled from the spec: the path of a pattern under an argument map.
    Every placeholder is replaced by its argument; the result is the
    segments, the arguments that no placeholder consumed, and the
    placeholders without an argument. *)
Fixpoint reverse (els : list string) (args : gmap string string)
  : list string * gmap string string * list string :=
  match els with
  | [] => ([], args, [])
  | el :: els' =>
      let '(segs, unused, missing) := reverse els' args in
      if is_colon el || is_star el then
        let name := Strings.drop 1 el in
        match args !! name with
        | Some v => (v :: segs, delete name unused, missing)
        | None => (EmptyString :: segs, unused, name :: missing)
        end
      else (el :: segs, unused, missing)
  end.

(** Modelled from the spec: [Reverse] of package pathtree, from a leaf
    and an argument map.  The leaf is a pointer; it is nil for a route
    that was never registered. *)
Definition Reverse {V : Type} (n : Node V) (leaf : option (Leaf V))
           (args : gmap string string)
  : result (string * gmap string string * list string) :=
  match leaf with
  | None => Panic "nil pointer dereference"
  | Some l =>
      let '(segs, unused, missing) := reverse (elements l) args in
      Ok (String "/"%char (Strings.Join segs "/"), unused, missing)
  end.

End pathtree.

(** ** The router's data *)

Module Route.
(** [type Route struct].  [leaf] is a pointer into the tree, nil until
    [updateTree] sets it; a leaf's [Value] is the descriptor as it was
    registered (no code reads [leaf] through a tree value). *)
#[warnings="-register-all"]
Inductive t : Type := mk {
  Method : string;
  Path : string;
  Action : string;
  ControllerName : string;
  MethodName : string;
  FixedParams : list string;
  TreePath : string;
  leaf : option (pathtree.Leaf t);
  routesPath : string;
  line : Z;
}.

Definition set_names (c m : string) (r : t) : t :=
  mk (Method r) (Path r) (Action r) c m (FixedParams r) (TreePath r)
     (leaf r) (routesPath r) (line r).

Definition set_leaf (l : option (pathtree.Leaf t)) (r : t) : t :=
  mk (Method r) (Path r) (Action r) (ControllerName r) (MethodName r)
     (FixedParams r) (TreePath r) l (routesPath r) (line r).
End Route.

Module RouteMatch.
Record t : Type := mk {
  Action : string;
  ControllerName : string;
  MethodName : string;
  FixedParams : list string;
  Params : gmap string (list string);
}.
End RouteMatch.

Module Error.
(** [type Error struct], the fields the router fills in. *)
Record t : Type := mk {
  Title : string;
  Description : string;
  Path : string;
  Line : Z;
  SourceLines : list string;
}.
End Error.

(** A value of the interface [error]: a [*Error] of the framework, or any
    other error, of which only the message matters. *)
Inductive error :=
| revelError (e : Error.t)
| otherError (msg : string).

Module ActionDefinition.
Record t : Type := mk {
  Host : string;
  Method : string;
  Url : string;
  Action : string;
  Star : bool;
  Args : gmap string string;
}.
End ActionDefinition.

(** [http.Request], the two fields the router reads. *)
Record Request := mkRequest {
  ReqMethod : string;      (* req.Method *)
  URLPath : string;        (* req.URL.Path *)
}.

Record Router := mkRouter {
  Routes : list Route.t;
  Tree : pathtree.Node Route.t;
  path : string;
}.

(** What the router needs from the rest of the program. *)
Record World := mkWorld {
  (** [ioutil.ReadFile]: the content of the file, or the error's text. *)
  ReadFile : string -> string + string;
  (** [ModuleByName]: the [Path] of the module, when it is active. *)
  ModuleByName : string -> option string;
  (** [Controller.SetAction]: nil when the action exists. *)
  SetAction : string -> string -> option error;
}.

(** ** Route descriptors *)

Definition treePath (method path : string) : string :=
  let method := if String.eqb method "*" then ":METHOD" else method in
  "/" +:+ method +:+ path.

(** [s[len(s)-1] == ';'] for a non-empty [s]. *)
Fixpoint ends_in_semicolon (s : string) : bool :=
  match s with
  | EmptyString => false
  | String c EmptyString => Ascii.eqb c ";"%char
  | String _ s' => ends_in_semicolon s'
  end.

(** One half of the action, lines 72-76 and 77-81. *)
Definition strip_semicolon (part : string) : string :=
  if (1 <? Strings.len part) && ends_in_semicolon part
  then Strings.take (String.length part - 1) part
  else part.

(** Prepares the route to be used in matching. *)
Definition NewRoute (method path action fixedArgs routesPath : string)
           (line : Z) : Route.t :=
  (* Handle fixed arguments; an error other than io.EOF is logged. *)
  let fargs :=
    match csv.Read fixedArgs with
    | csv.Record_ fields => fields
    | csv.EOF | csv.ParseError => []
    end in
  let r := Route.mk (Strings.ToUpper method) path action
                    EmptyString EmptyString fargs
                    (treePath (Strings.ToUpper method) path)
                    None routesPath line in
  (* URL pattern *)
  if negb (Strings.HasPrefix (Route.Path r) "/") then
    (* ERROR.Print("Absolute URL required.") *)
    r
  else
    match Strings.Split action "."%char with
    | [part0; part1] =>
        Route.set_names (strip_semicolon part0) (strip_semicolon part1) r
    | _ => r
    end.

Definition untreePath (path : string) : result (string * string) :=
  if Strings.len path =? 0 then Ok (path, "/")
  else
    let* rest := Strings.slice_from path 1 in
    let split := Strings.Index rest "/"%char in
    if split =? -1 then Ok (path, "/")
    else
      let* method := Strings.slice_to path split in
      let* url := Strings.slice_from path (split + 1) in
      Ok (method, url).

(** ** The matcher *)

(** [var notFound = &RouteMatch{Action: "404"}]: one value, shared by
    every explicit 404. *)
Definition notFound : RouteMatch.t :=
  RouteMatch.mk "404" EmptyString EmptyString [] ∅.

(** Lines 122-128: the map of the route parameters.  [leaf.Wildcards[i]]
    panics when there are more expansions than placeholders. *)
Fixpoint routeParams (ws : list pathtree.Wildcard) (expansions : list string)
         (params : gmap string (list string)) {struct expansions}
  : result (gmap string (list string)) :=
  match expansions with
  | [] => Ok params
  | v :: expansions' =>
      match ws with
      | [] => Panic "index out of range"
      | w :: ws' => routeParams ws' expansions' (<[pathtree.Name w := [v]]> params)
      end
  end.

(** [params[name][0]]. *)
Definition firstValue (params : gmap string (list string)) (name : string)
  : result string :=
  match params !! name with
  | Some (v :: _) => Ok v
  | _ => Panic "index out of range"
  end.

(** Lines 137-143 for the controller and 144-150 for the method: if the
    name is variablized, replace into it with the captured args. *)
Definition variablized (name : string) (params : gmap string (list string))
  : result string :=
  let pos := Strings.LastIndex name ":"%char in
  if negb (pos =? -1) then
    if pos =? 0 then
      let* key := Strings.slice_from name (pos + 1) in
      firstValue params key
    else
      let* prefix := Strings.slice_to name pos in
      let* key := Strings.slice_from name (pos + 1) in
      let* v := firstValue params key in
      Ok (prefix +:+ v)
  else Ok name.

(** The part of [Route] after the lookup in the tree. *)
Definition resolve (leaf : pathtree.Leaf Route.t) (expansions : list string)
  : result (option RouteMatch.t) :=
  let route := pathtree.Value leaf in
  (* Create a map of the route parameters. *)
  let* params := routeParams (pathtree.Wildcards leaf) expansions ∅ in
  (* Special handling for explicit 404's. *)
  if String.eqb (Route.Action route) "404" then Ok (Some notFound)
  else
    let* controllerName := variablized (Route.ControllerName route) params in
    let* methodName := variablized (Route.MethodName route) params in
    Ok (Some (RouteMatch.mk EmptyString controllerName methodName
                            (Route.FixedParams route) params)).

(** [func (router *Router) Route(req *http.Request) *RouteMatch]; a nil
    result is [None]. *)
Definition Route (router : Router) (req : Request)
  : result (option RouteMatch.t) :=
  match pathtree.Find (Tree router) (treePath (ReqMethod req) (URLPath req)) with
  | None => Ok None
  | Some (leaf, expansions) => resolve leaf expansions
  end.

(** ** The route grammar *)

Module Grammar.
Import regexp.

Definition is_byte (c d : ascii) : bool := Ascii.eqb d c.
Definition blank (c : ascii) : bool :=
  Ascii.eqb c " "%char || Ascii.eqb c "009"%char.
Definition any (c : ascii) : bool := negb (Ascii.eqb c "010"%char).

Fixpoint cat (rs : list re) : re :=
  match rs with
  | [] => Lit EmptyString
  | [r] => r
  | r :: rs' => Seq r (cat rs')
  end.

Fixpoint alt (rs : list re) : re :=
  match rs with
  | [] => Lit EmptyString
  | [r] => r
  | r :: rs' => Alt r (alt rs')
  end.

(** Groups: 1: method, 4: path, 5: action, 6: fixedargs. *)
Definition routePattern : re :=
  cat [ Group 1 (alt [Lit "GET"; Lit "POST"; Lit "PUT"; Lit "DELETE";
                      Lit "PATCH"; Lit "OPTIONS"; Lit "HEAD"; Lit "WS";
                      Lit "*"]);
        Opt (Class (is_byte "("%char));
        Group 2 (Star (fun c => negb (is_byte ")"%char c)));
        Opt (Group 3 (Class (is_byte ")"%char)));
        Plus blank;
        Group 4 (cat [Star any; Class (is_byte "/"%char);
                      Star (fun c => negb (blank c))]);
        Plus blank;
        Group 5 (Plus (fun c => negb (blank c || is_byte "("%char c)));
        Opt (Class (is_byte "("%char));
        Group 6 (Star (fun c => negb (is_byte ")"%char c)));
        Opt (Class (is_byte ")"%char));
        Star blank ].
End Grammar.

(** [parseRouteLine]: [None] is [found = false]. *)
Definition parseRouteLine (line : string)
  : option (string * string * string * string) :=
  match regexp.match_whole Grammar.routePattern line with
  | None => None
  | Some matches =>
      Some (regexp.submatch matches 1, regexp.submatch matches 4,
            regexp.submatch matches 5, regexp.submatch matches 6)
  end.

(** [%d] of [fmt]. *)
Definition decimal (n : nat) : string := NilZero.string_of_uint (Nat.to_uint n).

(** [path.Join] of elements that are clean already. *)
Definition path_Join (elems : list string) : string :=
  Strings.Join (filter (fun el => el ≠ EmptyString) elems) "/".

(** ** Building the route table *)

Section Table.

Variable W : World.

(** validateRoute checks that every specified action exists. *)
Definition validateRoute (route : Route.t) : option error :=
  (* Skip 404s *)
  if String.eqb (Route.Action route) "404" then None
  else
    (* We should be able to load the action. *)
    let parts := Strings.Split (Route.Action route) "."%char in
    match parts with
    | [part0; part1] =>
        (* Skip variable routes. *)
        if negb (Strings.LastIndex part0 ":"%char =? -1)
           || negb (Strings.LastIndex part1 ":"%char =? -1)
        then None
        else SetAction W part0 part1
    | _ =>
        Some (otherError
                ("Expected two parts (Controller.Action), but got "
                   +:+ decimal (length parts) +:+ ": "
                   +:+ Route.Action route))
    end.

(** routeError adds context to a simple error message. *)
Definition routeError (err : error) (routesPath content : string) (n : Z)
  : Error.t :=
  match err with
  | revelError e => e
  | otherError msg =>
      (* Load the route file content if necessary *)
      let content :=
        if String.eqb content EmptyString then
          match ReadFile W routesPath with
          | inl bytes => bytes
          | inr _ => content        (* logged *)
          end
        else content in
      Error.mk "Route validation error" msg routesPath (n + 1)
               (Strings.Split content "010"%char)
  end.

(** The result of the functions that read routes: the routes and the
    error, as the source returns them. *)
Definition parsed : Type := list Route.t * option Error.t.

(** The loop of [parseRoutes] from line number [n] on; [routes] is what
    was appended so far.  [getModuleRoutes] is the function of that name;
    it runs out of fuel when includes nest too deep. *)
Fixpoint parseLines (getModuleRoutes : string -> bool -> option parsed)
         (routesPath content : string) (validate : bool)
         (lines : list string) (n : Z) (routes : list Route.t)
  : option parsed :=
  match lines with
  | [] => Some (routes, None)
  | line :: lines' =>
      let continue := parseLines getModuleRoutes routesPath content validate
                                 lines' (n + 1) in
      let line := Strings.TrimSpace line in
      if (Strings.len line =? 0)
         || (match line with
             | String c _ => Ascii.eqb c "#"%char
             | EmptyString => false
             end)
      then continue routes
      else if Strings.HasPrefix line "module:" then
        (* Handle included routes from modules. *)
        match getModuleRoutes (Strings.drop 7 line) validate with
        | None => None
        | Some (_, Some err) =>
            Some ([], Some (routeError (revelError err) routesPath content n))
        | Some (moduleRoutes, None) => continue (routes ++ moduleRoutes)
        end
      else
        (* A single route *)
        match parseRouteLine line with
        | None => continue routes
        | Some (method, path, action, fixedArgs) =>
            let route := NewRoute method path action fixedArgs routesPath n in
            let routes := routes ++ [route] in
            if validate then
              match validateRoute route with
              | Some err => Some ([], Some (routeError err routesPath content n))
              | None => continue routes
              end
            else continue routes
        end
  end.

Definition parseRoutesWith (getModuleRoutes : string -> bool -> option parsed)
           (routesPath content : string) (validate : bool) : option parsed :=
  parseLines getModuleRoutes routesPath content validate
             (Strings.Split content "010"%char) 0 [].

(** getModuleRoutes loads the routes file for the given module and
    returns the list of routes. *)
Definition getModuleRoutesWith
           (parseRoutesFile : string -> bool -> option parsed)
           (moduleName : string) (validate : bool) : option parsed :=
  match ModuleByName W moduleName with
  | None => Some ([], None)    (* INFO: skipping routes for inactive module *)
  | Some modulePath =>
      parseRoutesFile (path_Join [modulePath; "conf"; "routes"]) validate
  end.

(** parseRoutesFile reads the given routes file and returns the
    contained routes.  [fuel] bounds the depth of module includes; the
    result is [None] when it does not suffice. *)
Fixpoint parseRoutesFile (fuel : nat) (routesPath : string) (validate : bool)
  : option parsed :=
  match fuel with
  | O => None
  | S fuel' =>
      match ReadFile W routesPath with
      | inr description =>
          Some ([], Some (Error.mk "Failed to load routes file" description
                                   EmptyString 0 []))
      | inl content =>
          parseRoutesWith (getModuleRoutesWith (parseRoutesFile fuel'))
                          routesPath content validate
      end
  end.

Definition getModuleRoutes (fuel : nat) : string -> bool -> option parsed :=
  getModuleRoutesWith (parseRoutesFile fuel).


(** The loop of [updateTree]: the routes with their [leaf] set, the
    tree, and the error. *)
Fixpoint registerRoutes (tree : pathtree.Node Route.t) (routes : list Route.t)
  : list Route.t * pathtree.Node Route.t * option Error.t :=
  match routes with
  | [] => ([], tree, None)
  | route :: routes' =>
      let '(tree, leaf, err) := pathtree.Add tree (Route.TreePath route) route in
      let route' := Route.set_leaf leaf route in
      (* Allow GETs to respond to HEAD requests. *)
      let '(tree, err) :=
        match err with
        | None =>
            if String.eqb (Route.Method route) "GET" then
              let '(tree, _, err) :=
                pathtree.Add tree (treePath "HEAD" (Route.Path route)) route in
              (tree, err)
            else (tree, err)
        | Some _ => (tree, err)
        end in
      (* Error adding a route to the pathtree. *)
      match err with
      | Some msg =>
          (route' :: routes', tree,
           Some (routeError (otherError msg) (Route.routesPath route)
                            EmptyString (Route.line route)))
      | None =>
          let '(routes'', tree, err) := registerRoutes tree routes' in
          (route' :: routes'', tree, err)
      end
  end.

Definition updateTree (router : Router) : Router * option Error.t :=
  let '(routes, tree, err) := registerRoutes pathtree.New (Routes router) in
  (mkRouter routes tree (path router), err).

(** Refresh re-reads the routes file and re-calculates the routing
    table.  The result is the router after the call and the error. *)
Definition Refresh (fuel : nat) (router : Router)
  : option (Router * option Error.t) :=
  match parseRoutesFile fuel (path router) true with
  | None => None
  | Some (routes, err) =>
      let router := mkRouter routes (Tree router) (path router) in
      match err with
      | Some _ => Some (router, err)
      | None => Some (updateTree router)
      end
  end.

End Table.

Definition NewRouter (routesPath : string) : Router :=
  mkRouter [] pathtree.New routesPath.

(** ** net/url: the query string *)

Module url.

Definition hex (n : nat) : ascii :=
  match n with
  | 0 => "0" | 1 => "1" | 2 => "2" | 3 => "3" | 4 => "4" | 5 => "5"
  | 6 => "6" | 7 => "7" | 8 => "8" | 9 => "9" | 10 => "A" | 11 => "B"
  | 12 => "C" | 13 => "D" | 14 => "E" | _ => "F"
  end%nat%char.

Definition unreserved (c : ascii) : bool :=
  let n := nat_of_ascii c in
  ((48 <=? n) && (n <=? 57) || (65 <=? n) && (n <=? 90)
   || (97 <=? n) && (n <=? 122))%nat
  || Ascii.eqb c "-"%char || Ascii.eqb c "_"%char
  || Ascii.eqb c "."%char || Ascii.eqb c "~"%char.

Fixpoint QueryEscape (s : string) : string :=
  match s with
  | EmptyString => EmptyString
  | String c s' =>
      if unreserved c then String c (QueryEscape s')
      else if Ascii.eqb c " "%char then String "+"%char (QueryEscape s')
      else
        let n := nat_of_ascii c in
        String "%"%char
               (String (hex (n / 16)) (String (hex (n mod 16)) (QueryEscape s')))
  end.

Fixpoint insert_sorted (k : string) (ks : list string) : list string :=
  match ks with
  | [] => [k]
  | k' :: ks' => if String.leb k k' then k :: ks else k' :: insert_sorted k ks'
  end.

(** [Values.Encode]: the pairs [key=value], sorted by key. *)
Definition Encode (v : gmap string (list string)) : string :=
  let keys := foldr insert_sorted [] (fst <$> map_to_list v) in
  Strings.Join
    (k ← keys;
     (fun val => QueryEscape k +:+ "=" +:+ QueryEscape val)
       <$> default [] (v !! k))
    "&".

End url.

(** ** The reverse router *)

(** [w > 0 && name[:w] != requested[:w]]: one operand of line 370-371.
    The slice of the requested name panics when it is shorter than [w]. *)
Definition prefixDiffers (w : Z) (name requested : string) : result bool :=
  if 0 <? w then
    let* a := Strings.slice_to name w in
    let* b := Strings.slice_to requested w in
    Ok (negb (String.eqb a b))
  else Ok false.

(** Lines 353-373: [Ok false] when the loop continues with the next
    route, [Ok true] when this route is the one to reverse. *)
Definition candidate (route : Route.t) (controllerName methodName : string)
  : result bool :=
  (* Skip routes without either a ControllerName or MethodName *)
  if String.eqb (Route.ControllerName route) EmptyString
     || String.eqb (Route.MethodName route) EmptyString
  then Ok false
  else
    (* Check that the action matches or is a wildcard. *)
    let controllerWildcard := Strings.LastIndex (Route.ControllerName route) ":"%char in
    let methodWildcard := Strings.LastIndex (Route.MethodName route) ":"%char in
    if (controllerWildcard =? -1)
         && negb (String.eqb (Route.ControllerName route) controllerName)
       || (methodWildcard =? -1)
            && negb (String.eqb (Route.MethodName route) methodName)
    then Ok false
    (* Check prefix exists and matches *)
    else if (0 <? controllerWildcard)
              && (Strings.len (Route.ControllerName route) <=? controllerWildcard)
            || (0 <? methodWildcard)
                 && (Strings.len (Route.MethodName route) <=? methodWildcard)
    then Ok false
    else
      let* differs :=
        prefixDiffers controllerWildcard (Route.ControllerName route) controllerName in
      if differs then Ok false
      else
        let* differs :=
          prefixDiffers methodWildcard (Route.MethodName route) methodName in
        Ok (negb differs).

(** Lines 375-380, for one half: insert the original controller or
    method. *)
Definition insertOriginal (w : Z) (name requested : string)
           (argValues : gmap string string) : result (gmap string string) :=
  if negb (w =? -1) then
    let* key := Strings.slice_from name (w + 1) in
    let* value := Strings.slice_from requested w in
    Ok (<[key := value]> argValues)
  else Ok argValues.

(** Lines 374-415: the definition that reverses through [route]. *)
Definition reverseThrough (router : Router) (route : Route.t)
           (action controllerName methodName : string)
           (argValues : gmap string string) : result ActionDefinition.t :=
  let controllerWildcard := Strings.LastIndex (Route.ControllerName route) ":"%char in
  let methodWildcard := Strings.LastIndex (Route.MethodName route) ":"%char in
  let* argValues :=
    insertOriginal controllerWildcard (Route.ControllerName route)
                   controllerName argValues in
  let* argValues :=
    insertOriginal methodWildcard (Route.MethodName route) methodName argValues in
  (* Get the path for the route and generate the url *)
  let* reversed := pathtree.Reverse (Tree router) (Route.leaf route) argValues in
  let '(path, unusedValues, missing) := reversed in
  let* untreed := untreePath path in
  let url := untreed.2 in
  (* Add any args that were not inserted into the path into the query string. *)
  let queryValues : gmap string (list string) := (fun v => [v]) <$> unusedValues in
  (* Calculate the final URL and Method *)
  let url :=
    if bool_decide (queryValues = ∅) then url
    else url +:+ "?" +:+ url.Encode queryValues in
  let star := String.eqb (Route.Method route) "*" in
  let method := if star then "GET" else Route.Method route in
  Ok (ActionDefinition.mk "TODO" method url action star argValues).

(** The loop of [Reverse] over [router.Routes]. *)
Fixpoint reverseRoutes (router : Router) (routes : list Route.t)
         (action controllerName methodName : string)
         (argValues : gmap string string) : result (option ActionDefinition.t) :=
  match routes with
  | [] => Ok None         (* ERROR: failed to find reverse route *)
  | route :: routes' =>
      let* selected := candidate route controllerName methodName in
      if selected then
        let* definition :=
          reverseThrough router route action controllerName methodName argValues in
        Ok (Some definition)
      else reverseRoutes router routes' action controllerName methodName argValues
  end.

(** [func (router *Router) Reverse(action string, argValues
    map[string]string) *ActionDefinition], for a map that is not nil; a
    nil result is [None]. *)
Definition Reverse (router : Router) (action : string)
           (argValues : gmap string string) : result (option ActionDefinition.t) :=
  match Strings.Split action "."%char with
  | [controllerName; methodName] =>
      reverseRoutes router (Routes router) action controllerName methodName argValues
  | _ => Ok None          (* ERROR: reverse router got invalid action *)
  end.

(** ** Notions used to state the properties *)

(** The placeholder name of one half of an action: the text after its
    last colon. *)
Definition placeholder (name : string) : option string :=
  (fun i => Strings.drop (S i) name) <$> Strings.last_index_nat name ":"%char.

(** [substitutes params name resolved]: how a half [name] of a descriptor's
    action resolves under the captured parameters.  A half without a colon
    resolves to itself; a half [prefix:key] resolves to [prefix] followed
    by the first value captured for [key]. *)
Inductive substitutes (params : gmap string (list string))
  : string -> string -> Prop :=
| substitutes_literal name :
    Strings.count name ":"%char = O ->
    substitutes params name name
| substitutes_placeholder prefix key v vs :
    Strings.count key ":"%char = O ->
    params !! key = Some (v :: vs) ->
    substitutes params (prefix +:+ ":" +:+ key) (prefix +:+ v).

(** Every parameter has exactly one value. *)
Definition singletons (params : gmap string (list string)) : Prop :=
  forall key vs, params !! key = Some vs -> exists v, vs = [v].

(** The leaf that [Add] makes for a key and a route. *)
Definition leafAt (key : string) (route : Route.t) : pathtree.Leaf Route.t :=
  let els := pathtree.pattern (pathtree.splitPath key) in
  pathtree.mkLeaf route (pathtree.wildcards els) els.

(** The leaves that [updateTree] registers for a list of routes, in
    order: one under the route's tree path and, for a GET, one more
    under the HEAD key. *)
Definition registrations (routes : list Route.t) : list (pathtree.Leaf Route.t) :=
  route ← routes;
  leafAt (Route.TreePath route) route
    :: (if String.eqb (Route.Method route) "GET"
        then [leafAt (treePath "HEAD" (Route.Path route)) route] else []).

(** The first segment of a tree path: the method, or the placeholder that
    stands for any method. *)
Definition methodSegment (method : string) : string :=
  if String.eqb method "*" then ":METHOD" else method.

(** A descriptor as [NewRoute] makes it from a method without a slash
    and an absolute path. *)
Definition wellFormed (route : Route.t) : Prop :=
  Route.TreePath route = treePath (Route.Method route) (Route.Path route) /\
  Strings.HasPrefix (Route.Path route) "/" = true /\
  Strings.count (Route.Method route) "/"%char = O.

(** One half of a descriptor's action against the requested half, as the
    reverse router is meant to compare them: equal when the half has no
    colon, otherwise the text before its last colon is a prefix of the
    requested half. *)
Definition halfMatches (name requested : string) : bool :=
  match Strings.last_index_nat name ":"%char with
  | None => String.eqb name requested
  | Some i => Strings.HasPrefix requested (Strings.take i name)
  end.

(** A descriptor that can reverse the requested action. *)
Definition eligible (route : Route.t) (controllerName methodName : string) : bool :=
  negb (String.eqb (Route.ControllerName route) EmptyString)
  && negb (String.eqb (Route.MethodName route) EmptyString)
  && halfMatches (Route.ControllerName route) controllerName
  && halfMatches (Route.MethodName route) methodName.

(** The language of a regular expression of the fragment: [lang r t caps
    caps'] says that [r] matches the text [t] and extends the captures
    [caps] to [caps']. *)
Module Language.
Import regexp.

Fixpoint all_bytes (p : ascii -> bool) (t : string) : bool :=
  match t with
  | EmptyString => true
  | String c t' => p c && all_bytes p t'
  end.

(** Equal up to the case of the ASCII letters. *)
Fixpoint same_fold (l t : string) : bool :=
  match l, t with
  | EmptyString, EmptyString => true
  | String a l', String b t' =>
      Ascii.eqb (Strings.upper_byte a) (Strings.upper_byte b) && same_fold l' t'
  | _, _ => false
  end.

Fixpoint lang (r : re) (t : string) (caps caps' : captures) : Prop :=
  match r with
  | Lit l => same_fold l t = true /\ caps' = caps
  | Class p => (exists c, t = String c EmptyString /\ p c = true) /\ caps' = caps
  | Star p => all_bytes p t = true /\ caps' = caps
  | Plus p => t <> EmptyString /\ all_bytes p t = true /\ caps' = caps
  | Opt r1 => lang r1 t caps caps' \/ (t = EmptyString /\ caps' = caps)
  | Alt r1 r2 => lang r1 t caps caps' \/ lang r2 t caps caps'
  | Seq r1 r2 =>
      exists t1 t2 capsm,
        t = t1 +:+ t2 /\ lang r1 t1 caps capsm /\ lang r2 t2 capsm caps'
  | Group n r1 =>
      exists capsm, lang r1 t caps capsm /\ caps' = (n, t) :: capsm
  end.

End Language.

(** The method keywords of the route grammar. *)
Definition methodKeywords : list string :=
  ["GET"; "POST"; "PUT"; "DELETE"; "PATCH"; "OPTIONS"; "HEAD"; "WS"; "*"].

(** A descriptor as the route grammar allows it: the method is one of
    the keywords, the path has a slash, there is a target, the tree path
    is the one of the method and the path, and no leaf is set yet. *)
Definition grammatical (route : Route.t) : Prop :=
  Route.Method route ∈ methodKeywords /\
  Strings.count (Route.Path route) "/"%char <> O /\
  Route.Action route <> EmptyString /\
  Route.TreePath route = treePath (Route.Method route) (Route.Path route) /\
  Route.leaf route = None.


(** ** The filter *)

(** [c.NotFound(msg)]: the result that answers 404 with the message. *)
Inductive Result : Type :=
| NotFound (msg : string).

(** [type Controller struct], the fields that [RouterFilter] reads and
    writes: the request, the result, the route and the fixed parameters
    of [c.Params] (a nil map is [None]) and the names of
    [c.MethodType.Args]. *)
Record Controller := mkController {
  CRequest : Request;
  CResult : option Result;
  ParamsRoute : gmap string (list string);
  ParamsFixed : option (gmap string (list string));
  MethodArgs : list string;
}.

Definition set_Result (r : Result) (c : Controller) : Controller :=
  mkController (CRequest c) (Some r) (ParamsRoute c) (ParamsFixed c)
               (MethodArgs c).

Definition set_Params (route : gmap string (list string))
           (fixed : option (gmap string (list string))) (c : Controller)
  : Controller :=
  mkController (CRequest c) (CResult c) route fixed (MethodArgs c).

(** [type Filter func(c *Controller, filterChain []Filter)]: a filter is
    given the controller and what running the rest of the chain does. *)
Definition Filter : Type :=
  (Controller -> result Controller) -> Controller -> result Controller.

(** [fc[0](c, fc[1:])]; it panics on an empty chain. *)
Fixpoint runChain (fc : list Filter) (c : Controller) : result Controller :=
  match fc with
  | [] => Panic "index out of range"
  | filter :: fc' => filter (runChain fc') c
  end.

(** The loop of [RouterFilter] that adds the fixed parameters mapped by
    name, from the index [i] on. *)
Fixpoint fixedByName (args : list string) (i : nat) (fixedParams : list string)
         (fixed : option (gmap string (list string)))
  : option (gmap string (list string)) :=
  match fixedParams with
  | [] => fixed
  | value :: fixedParams' =>
      let fixed := match fixed with
                   | None => ∅        (* make(url.Values) *)
                   | Some values => values
                   end in
      match args !! i with
      | Some name =>
          fixedByName args (S i) fixedParams' (Some (<[name := [value]]> fixed))
      | None => Some fixed            (* WARN: too many parameters; break *)
      end
  end.

Section Filter.

(** [c.SetAction(controllerName, methodName)]: the controller after the
    call and the text of the error, if there is one. *)
Variable SetActionOn : Controller -> string -> string -> Controller * option string.

(** [func RouterFilter(c *Controller, fc []Filter)], with [MainRouter]
    as [router]. *)
Definition RouterFilter (router : Router) (c : Controller) (fc : list Filter)
  : result Controller :=
  (* Figure out the Controller/Action *)
  let* route := Route router (CRequest c) in
  match route with
  | None => Ok (set_Result (NotFound "No matching route found") c)
  | Some route =>
      (* The route may want to explicitly return a 404. *)
      if String.eqb (RouteMatch.Action route) "404" then
        Ok (set_Result (NotFound "(intentionally)") c)
      else
        (* Set the action. *)
        match SetActionOn c (RouteMatch.ControllerName route)
                          (RouteMatch.MethodName route) with
        | (c, Some err) => Ok (set_Result (NotFound err) c)
        | (c, None) =>
            (* Add the route and fixed params to the Request Params. *)
            let fixed := fixedByName (MethodArgs c) 0
                                     (RouteMatch.FixedParams route)
                                     (ParamsFixed c) in
            runChain fc (set_Params (RouteMatch.Params route) fixed c)
        end
  end.

End Filter.

(** ** Example tables *)

Module Examples.

Definition file (lines : list string) : string :=
  Strings.Join lines (String "010"%char EmptyString).

(** A program whose routes file is conf/routes with the given lines,
    with no modules, and where every action exists. *)
Definition world (lines : list string) : World :=
  mkWorld (fun name => if String.eqb name "conf/routes"
                       then inl (file lines)
                       else inr "no such file or directory")
          (fun _ => None)
          (fun _ _ => None).

(** A program without a routes file. *)
Definition noFile : World :=
  mkWorld (fun _ => inr "no such file or directory")
          (fun _ => None) (fun _ _ => None).

(** The router after its first [Refresh]. *)
Definition table (lines : list string) : Router :=
  match Refresh (world lines) 1 (NewRouter "conf/routes") with
  | Some (router, _) => router
  | None => NewRouter "conf/routes"
  end.

End Examples.

(** * Properties *)

(** ** Byte strings *)

Module StringFacts.
Import Strings.

Lemma app_nil_l t : EmptyString +:+ t = t.
Proof. reflexivity. Qed.

Lemma app_cons c s t : String c s +:+ t = String c (s +:+ t).
Proof. reflexivity. Qed.

Ltac str_simpl := simpl; rewrite ?app_nil_l, ?app_cons; simpl.

Lemma length_take n s : (n <= String.length s)%nat -> String.length (take n s) = n.
Proof.
  revert s. induction n as [|n IH]; intros [|c s] Hn; simpl in *; try lia.
  rewrite IH; lia.
Qed.

Lemma take_app s t : take (String.length s) (s +:+ t) = s.
Proof. induction s as [|c s IH]; str_simpl; [by destruct t | by rewrite IH]. Qed.

Lemma drop_app s t : drop (String.length s) (s +:+ t) = t.
Proof. induction s as [|c s IH]; str_simpl; [by destruct t | done]. Qed.

Lemma app_empty_r s : s +:+ EmptyString = s.
Proof. induction s as [|c s IH]; str_simpl; [done | by rewrite IH]. Qed.

Lemma app_assoc s t u : (s +:+ t) +:+ u = s +:+ t +:+ u.
Proof. induction s as [|c s IH]; str_simpl; [done | by rewrite IH]. Qed.

Lemma length_app s t :
  String.length (s +:+ t) = (String.length s + String.length t)%nat.
Proof. induction s as [|c s IH]; str_simpl; [done | by rewrite IH]. Qed.

Lemma last_index_lt s sep i :
  last_index_nat s sep = Some i -> (i < String.length s)%nat.
Proof.
  revert i. induction s as [|c s IH]; simpl; intros i; [done|].
  destruct (last_index_nat s sep) as [j|].
  - intros [= <-]. specialize (IH j eq_refl). lia.
  - destruct (Ascii.eqb c sep); intros [= <-]. lia.
Qed.

Lemma last_index_none s sep :
  last_index_nat s sep = None <-> count s sep = O.
Proof.
  induction s as [|c s IH]; simpl; [done|].
  destruct (last_index_nat s sep) as [j|], (Ascii.eqb c sep); split;
    try done; try lia.
  - intros H. assert (count s sep = O) as H0 by lia. by apply IH in H0.
  - intros _. simpl. by apply IH.
Qed.

(** The last separator of [prefix ++ sep ++ key], when [key] has
    none, is the one in the middle. *)
Lemma last_index_app prefix sep key :
  count key sep = O ->
  last_index_nat (prefix +:+ String sep key) sep = Some (String.length prefix).
Proof.
  intros Hkey. apply last_index_none in Hkey.
  induction prefix as [|c prefix IH]; str_simpl.
  - by rewrite Hkey, Ascii.eqb_refl.
  - by rewrite IH.
Qed.

(** Conversely the last separator splits the string that way. *)
Lemma last_index_split s sep i :
  last_index_nat s sep = Some i ->
  s = take i s +:+ String sep (drop (S i) s) /\ count (drop (S i) s) sep = O.
Proof.
  revert i. induction s as [|c s IH]; simpl; intros i; [done|].
  destruct (last_index_nat s sep) as [j|] eqn:Hj.
  - intros [= <-]. destruct (IH j eq_refl) as [Hs Hc]. str_simpl.
    split; [congruence | done].
  - destruct (Ascii.eqb c sep) eqn:Hc; intros [= <-]. str_simpl.
    apply Ascii.eqb_eq in Hc as ->. split; [done|].
    by apply last_index_none.
Qed.

Lemma LastIndex_range s sep : -1 <= LastIndex s sep < len s.
Proof.
  unfold LastIndex, len. destruct (last_index_nat s sep) as [i|] eqn:Hi.
  - apply last_index_lt in Hi. lia.
  - lia.
Qed.

Lemma slice_to_ok s j :
  0 <= j <= len s -> slice_to s j = Ok (take (Z.to_nat j) s).
Proof.
  intros Hj. unfold slice_to.
  destruct (Z.leb_spec 0 j), (Z.leb_spec j (len s)); simpl; try lia; done.
Qed.

Lemma slice_from_ok s i :
  0 <= i <= len s -> slice_from s i = Ok (drop (Z.to_nat i) s).
Proof.
  intros Hi. unfold slice_from.
  destruct (Z.leb_spec 0 i), (Z.leb_spec i (len s)); simpl; try lia; done.
Qed.

Lemma slice_to_short s j : len s < j -> is_panic (slice_to s j).
Proof.
  intros Hj. unfold slice_to.
  destruct (Z.leb_spec 0 j), (Z.leb_spec j (len s)); simpl; try lia; done.
Qed.

(** [Split] cuts at every separator: one more part than separators. *)
Lemma Split_length s sep : length (Split s sep) = S (count s sep).
Proof.
  induction s as [|c s IH]; simpl; [done|].
  destruct (Ascii.eqb c sep); simpl; [by rewrite IH|].
  destruct (Split s sep); simpl in *; lia.
Qed.

Lemma Split_no_sep s sep : count s sep = O -> Split s sep = [s].
Proof.
  induction s as [|c s IH]; simpl; [done|].
  destruct (Ascii.eqb c sep); [done|]. intros H. by rewrite IH.
Qed.

Lemma Split_app s sep t :
  count s sep = O -> Split (s +:+ String sep t) sep = s :: Split t sep.
Proof.
  induction s as [|c s IH]; str_simpl.
  - by rewrite Ascii.eqb_refl.
  - destruct (Ascii.eqb c sep); [done|]. intros H. by rewrite IH.
Qed.

Lemma Split_two a b sep :
  count a sep = O -> count b sep = O ->
  Split (a +:+ String sep b) sep = [a; b].
Proof. intros Ha Hb. by rewrite Split_app, Split_no_sep. Qed.

Lemma Split_nonempty s sep : Split s sep <> [].
Proof.
  intros H. pose proof (Split_length s sep) as Hl. by rewrite H in Hl.
Qed.

(** Two parts mean exactly one separator, with the parts around it. *)
Lemma Split_two_inv s sep a b :
  Split s sep = [a; b] ->
  s = a +:+ String sep b /\ count a sep = O /\ count b sep = O.
Proof.
  revert a. induction s as [|c s IH]; simpl; intros a; [done|].
  destruct (Ascii.eqb c sep) eqn:Hc.
  - intros [= <- Hs]. apply Ascii.eqb_eq in Hc as ->. str_simpl.
    pose proof (Split_length s sep) as Hl. rewrite Hs in Hl. simpl in Hl.
    assert (count s sep = O) as H0 by lia.
    rewrite (Split_no_sep _ _ H0) in Hs. by injection Hs as ->.
  - destruct (Split s sep) as [|hd tl] eqn:Hs; [done|].
    intros [= <- ->]. destruct (IH hd eq_refl) as (-> & Ha & Hb).
    str_simpl. rewrite Hc. done.
Qed.

Lemma prefix_slash s :
  HasPrefix s "/" = true -> exists q, s = String "/"%char q.
Proof.
  destruct s as [|c q]; [done|]. cbn [HasPrefix].
  destruct (Ascii.eqb_spec "/"%char c) as [<-|]; [|done]. intros _. by exists q.
Qed.

End StringFacts.

(** ** Descriptor construction *)

Section NewRouteFacts.
Import Strings StringFacts.

Lemma ends_in_semicolon_app s :
  ends_in_semicolon (s +:+ ";") = true.
Proof.
  induction s as [|c s IH]; [done|].
  rewrite app_cons. simpl. destruct (s +:+ ";") eqn:E; [|done].
  by destruct s.
Qed.

(** A part longer than one byte that ends in a semicolon loses it. *)
Lemma strip_semicolon_strips s :
  s <> EmptyString -> strip_semicolon (s +:+ ";") = s.
Proof.
  intros Hs. unfold strip_semicolon, len.
  rewrite ends_in_semicolon_app, length_app. simpl String.length.
  destruct s as [|c s]; [done|]. simpl String.length.
  destruct (Z.ltb_spec 1 (Z.of_nat (S (String.length s) + 1))); [|lia].
  simpl andb. cbv iota.
  replace (S (String.length s) + 1 - 1)%nat with (String.length (String c s))
    by (simpl; lia).
  apply take_app.
Qed.

(** Any other part is kept as it is. *)
Lemma strip_semicolon_keeps s :
  ends_in_semicolon s = false \/ Strings.len s <= 1 -> strip_semicolon s = s.
Proof.
  unfold strip_semicolon. intros [-> | Hl].
  - by rewrite andb_false_r.
  - destruct (Z.ltb_spec 1 (len s)); [lia | done].
Qed.

Lemma NewRoute_fields method path action fixedArgs routesPath line :
  let r := NewRoute method path action fixedArgs routesPath line in
  Route.Method r = ToUpper method /\ Route.Path r = path /\
  Route.Action r = action /\
  Route.TreePath r = treePath (ToUpper method) path /\
  Route.leaf r = None.
Proof.
  unfold NewRoute. cbv zeta.
  destruct (negb _); [done|].
  destruct (Split action _) as [|p0 [|p1 [|p2 ps]]]; done.
Qed.

(** The descriptor of the sentinel target 404 has no controller and no
    method. *)
Lemma NewRoute_404 method path action fixedArgs routesPath line :
  Route.Action (NewRoute method path action fixedArgs routesPath line) = "404" ->
  Route.ControllerName (NewRoute method path action fixedArgs routesPath line)
  = EmptyString /\
  Route.MethodName (NewRoute method path action fixedArgs routesPath line)
  = EmptyString.
Proof.
  intros H.
  destruct (NewRoute_fields method path action fixedArgs routesPath line)
    as (_ & _ & Ha & _).
  rewrite Ha in H. subst action. unfold NewRoute.
  by destruct (negb _).
Qed.

Lemma upper_byte_slash c :
  Ascii.eqb (upper_byte c) "/"%char = Ascii.eqb c "/"%char.
Proof. by destruct c as [[] [] [] [] [] [] [] []]. Qed.

Lemma ToUpper_count_slash s : count (ToUpper s) "/"%char = count s "/"%char.
Proof.
  induction s as [|c s IH]; [done|]. cbn [ToUpper count].
  by rewrite upper_byte_slash, IH.
Qed.

(** [NewRoute] makes a well-formed descriptor from a method without a
    slash and an absolute path. *)
Lemma NewRoute_wellFormed method path action fixedArgs routesPath line :
  count method "/"%char = O -> HasPrefix path "/" = true ->
  wellFormed (NewRoute method path action fixedArgs routesPath line).
Proof.
  intros Hm Hp.
  destruct (NewRoute_fields method path action fixedArgs routesPath line)
    as (HM & HP & _ & HT & _).
  unfold wellFormed. rewrite HM, HP, HT, ToUpper_count_slash. done.
Qed.

End NewRouteFacts.

(** C3 (as amended).  For a path that starts with a slash, the descriptor
    splits the target at every dot.  A target with exactly one dot,
    [a.b], gives the namespace [a] and the member [b], each without its
    trailing semicolon when the part is longer than one byte; a target
    with no dot or with more than one dot (such as [A.B.C]) leaves both
    empty. *)
Theorem NewRoute_splits_at_every_dot
        (method path action fixedArgs routesPath : string) (line : Z) :
  Strings.HasPrefix path "/" = true ->
  let r := NewRoute method path action fixedArgs routesPath line in
  (forall a b,
      action = a +:+ "." +:+ b ->
      Strings.count a "."%char = O -> Strings.count b "."%char = O ->
      Route.ControllerName r = strip_semicolon a /\
      Route.MethodName r = strip_semicolon b) /\
  (Strings.count action "."%char <> 1%nat ->
   Route.ControllerName r = EmptyString /\ Route.MethodName r = EmptyString).
Proof.
  intros Hpath r. subst r. unfold NewRoute. cbn [Route.Path].
  rewrite Hpath. simpl negb. cbv iota.
  split.
  - intros a b -> Ha Hb.
    change (a +:+ "." +:+ b) with (a +:+ String "."%char b).
    by rewrite (StringFacts.Split_two a b "."%char Ha Hb).
  - intros Hn. pose proof (StringFacts.Split_length action "."%char) as Hl.
    destruct (Strings.Split action ".") as [|p0 [|p1 [|p2 ps]]]; simpl in *;
      try done.
    lia.
Qed.

(** The theorem at the targets [A;.B] and [A.B.C]. *)
Lemma NewRoute_splits_at_every_dot_witness :
  (Route.ControllerName (NewRoute "GET" "/x" "A;.B" EmptyString "conf/routes" 3) = "A" /\
   Route.MethodName (NewRoute "GET" "/x" "A;.B" EmptyString "conf/routes" 3) = "B") /\
  (Route.ControllerName (NewRoute "GET" "/x" "A.B.C" EmptyString "conf/routes" 3)
   = EmptyString /\
   Route.MethodName (NewRoute "GET" "/x" "A.B.C" EmptyString "conf/routes" 3)
   = EmptyString).
Proof.
  split.
  - exact (proj1 (NewRoute_splits_at_every_dot
                    "GET" "/x" "A;.B" EmptyString "conf/routes" 3 eq_refl)
                 "A;" "B" eq_refl eq_refl eq_refl).
  - apply (proj2 (NewRoute_splits_at_every_dot
                    "GET" "/x" "A.B.C" EmptyString "conf/routes" 3 eq_refl)).
    vm_compute. lia.
Defined.

(** C3 as stated fails: the target [A.B.C] does not give the namespace
    [A] and the member [B.C]. *)
Lemma NewRoute_first_dot_counterexample :
  ~ (Route.ControllerName (NewRoute "GET" "/x" "A.B.C" EmptyString "conf/routes" 3) = "A"
     /\ Route.MethodName (NewRoute "GET" "/x" "A.B.C" EmptyString "conf/routes" 3) = "B.C").
Proof. intros [H _]. vm_compute in H. discriminate H. Qed.

(** ** The matcher *)

Section MatcherFacts.
Import Strings StringFacts.

Lemma variablized_unfold name params :
  variablized name params =
  match last_index_nat name ":"%char with
  | None => Ok name
  | Some i =>
      let* v := firstValue params (drop (S i) name) in
      Ok (take i name +:+ v)
  end.
Proof.
  unfold variablized, LastIndex.
  destruct (last_index_nat name ":") as [i|] eqn:Hi; [|done].
  pose proof (last_index_lt _ _ _ Hi) as Hlt.
  destruct (Z.eqb_spec (Z.of_nat i) (-1)); [lia|]. simpl negb. cbv iota.
  rewrite slice_from_ok by (unfold len; lia).
  replace (Z.to_nat (Z.of_nat i + 1)) with (S i) by lia.
  destruct (Z.eqb_spec (Z.of_nat i) 0) as [H0|H0].
  - assert (i = O) as -> by lia. simpl bind.
    by destruct (firstValue params (drop 1 name)).
  - rewrite slice_to_ok by (unfold len; lia). by rewrite Nat2Z.id.
Qed.

Lemma variablized_placeholder name params :
  variablized name params =
  match last_index_nat name ":"%char, placeholder name with
  | Some i, Some key =>
      let* v := firstValue params key in Ok (take i name +:+ v)
  | _, _ => Ok name
  end.
Proof.
  rewrite variablized_unfold. unfold placeholder.
  by destruct (last_index_nat name ":").
Qed.

Lemma variablized_substitutes params name resolved :
  substitutes params name resolved -> variablized name params = Ok resolved.
Proof.
  intros [name' Hname | prefix key v vs Hkey Hv]; rewrite variablized_unfold.
  - apply last_index_none in Hname. by rewrite Hname.
  - change (prefix +:+ ":" +:+ key) with (prefix +:+ String ":"%char key).
    rewrite (last_index_app _ _ _ Hkey).
    replace (drop (S (String.length prefix)) (prefix +:+ String ":"%char key))
      with key.
    + rewrite take_app. unfold firstValue. by rewrite Hv.
    + clear. induction prefix as [|c prefix IH]; [done|].
      rewrite app_cons. simpl. by rewrite <- IH.
Qed.

Lemma routeParams_singletons ws expansions params params' :
  routeParams ws expansions params = Ok params' ->
  singletons params -> singletons params'.
Proof.
  revert ws params. induction expansions as [|v exps IH]; simpl;
    intros ws params.
  - by intros [= ->].
  - destruct ws as [|w ws]; [done|]. intros H Hs. eapply IH; [exact H|].
    intros key vs. rewrite lookup_insert. case_decide.
    + intros [= <-]. by exists v.
    + apply Hs.
Qed.

Lemma routeParams_ok ws expansions params :
  (length expansions <= length ws)%nat ->
  exists params', routeParams ws expansions params = Ok params'.
Proof.
  revert ws params. induction expansions as [|v exps IH]; simpl;
    intros ws params Hl; [by eexists|].
  destruct ws as [|w ws]; simpl in Hl; [lia|]. apply IH. lia.
Qed.

Lemma routeParams_length ws expansions params params' :
  routeParams ws expansions params = Ok params' ->
  (length expansions <= length ws)%nat.
Proof.
  revert ws params. induction expansions as [|v exps IH]; simpl;
    intros ws params; [lia|].
  destruct ws as [|w ws]; [done|]. intros H%IH. simpl. lia.
Qed.

Lemma firstValue_panic params key :
  singletons params ->
  is_panic (firstValue params key) <-> params !! key = None.
Proof.
  intros Hs. unfold firstValue.
  destruct (params !! key) as [vs|] eqn:Hk; [|done].
  destruct (Hs _ _ Hk) as [v ->]. done.
Qed.

Lemma variablized_panic params name :
  singletons params ->
  is_panic (variablized name params) <->
  exists key, placeholder name = Some key /\ params !! key = None.
Proof.
  intros Hs. rewrite variablized_placeholder. unfold placeholder.
  destruct (last_index_nat name ":") as [i|]; simpl.
  - destruct (firstValue params (drop (S i) name)) eqn:E; simpl.
    + split; [done|]. intros (key & [= <-] & H).
      apply (firstValue_panic _ _ Hs) in H. by rewrite E in H.
    + split; [|done]. intros _. eexists. split; [done|].
      apply (firstValue_panic _ _ Hs). by rewrite E.
  - split; [done|]. by intros (key & ? & _).
Qed.

(** What [Route] returns for a leaf that is not an explicit 404, in
    terms of the two substitutions. *)
Lemma resolve_unfold leaf expansions params :
  routeParams (pathtree.Wildcards leaf) expansions ∅ = Ok params ->
  String.eqb (Route.Action (pathtree.Value leaf)) "404" = false ->
  resolve leaf expansions =
  let* controllerName :=
    variablized (Route.ControllerName (pathtree.Value leaf)) params in
  let* methodName :=
    variablized (Route.MethodName (pathtree.Value leaf)) params in
  Ok (Some (RouteMatch.mk EmptyString controllerName methodName
                          (Route.FixedParams (pathtree.Value leaf)) params)).
Proof. intros Hp Ha. unfold resolve. rewrite Hp. simpl bind. by rewrite Ha. Qed.

Lemma resolve_404 leaf expansions :
  (length expansions <= length (pathtree.Wildcards leaf))%nat ->
  Route.Action (pathtree.Value leaf) = "404" ->
  resolve leaf expansions = Ok (Some notFound).
Proof.
  intros Hl Ha. unfold resolve.
  destruct (routeParams_ok _ _ ∅ Hl) as [params ->]. simpl bind.
  by rewrite Ha.
Qed.

End MatcherFacts.

(** C2 (as amended).  Wildcard substitution keeps the literal prefix
    before the last colon and puts the captured value in place of the
    colon and the placeholder name: a half [prefix:key] of the action
    resolves to [prefix] followed by the value captured for [key] (the
    whole half when the prefix is empty), and a half without a colon is
    kept.  The match carries the captured parameters and the descriptor's
    fixed arguments. *)
Theorem Route_substitutes_captured
        (router : Router) (req : Request) (leaf : pathtree.Leaf Route.t)
        (expansions : list string) (params : gmap string (list string))
        (controllerName methodName : string) :
  pathtree.Find (Tree router) (treePath (ReqMethod req) (URLPath req))
  = Some (leaf, expansions) ->
  routeParams (pathtree.Wildcards leaf) expansions ∅ = Ok params ->
  Route.Action (pathtree.Value leaf) <> "404" ->
  substitutes params (Route.ControllerName (pathtree.Value leaf)) controllerName ->
  substitutes params (Route.MethodName (pathtree.Value leaf)) methodName ->
  Route router req
  = Ok (Some (RouteMatch.mk EmptyString controllerName methodName
                            (Route.FixedParams (pathtree.Value leaf)) params)).
Proof.
  intros Hfind Hparams Haction Hc Hm. unfold Route. rewrite Hfind.
  rewrite (resolve_unfold _ _ _ Hparams) by by apply String.eqb_neq.
  by rewrite (variablized_substitutes _ _ _ Hc), (variablized_substitutes _ _ _ Hm).
Qed.

(** The rule [GET /admin/:ctrl Module:ctrl.Index] on the path
    [/admin/users]. *)
Lemma Route_substitutes_captured_witness :
  Route (Examples.table ["GET /admin/:ctrl Module:ctrl.Index"])
        (mkRequest "GET" "/admin/users")
  = Ok (Some (RouteMatch.mk EmptyString "Moduleusers" "Index" []
                            (<["ctrl" := ["users"]]> ∅))).
Proof.
  apply (Route_substitutes_captured
           _ _
           (leafAt "/GET/admin/:ctrl"
                   (NewRoute "GET" "/admin/:ctrl" "Module:ctrl.Index"
                             EmptyString "conf/routes" 0))
           ["users"] (<["ctrl" := ["users"]]> ∅) "Moduleusers" "Index").
  - vm_compute. reflexivity.
  - vm_compute. reflexivity.
  - vm_compute. discriminate.
  - exact (substitutes_placeholder (<["ctrl" := ["users"]]> ∅)
                                   "Module" "ctrl" "users" [] eq_refl eq_refl).
  - exact (substitutes_literal _ "Index" eq_refl).
Defined.

(** C2 as stated fails: on that rule and path the namespace does not
    resolve to [Module:users]. *)
Lemma Route_keeps_colon_counterexample :
  ~ exists m,
      Route (Examples.table ["GET /admin/:ctrl Module:ctrl.Index"])
            (mkRequest "GET" "/admin/users") = Ok (Some m)
      /\ RouteMatch.ControllerName m = "Module:users"
      /\ RouteMatch.MethodName m = "Index".
Proof.
  intros (m & H & Hc & _). vm_compute in H. injection H as <-.
  discriminate Hc.
Qed.

(** C7.  A request that matches a rule whose action is the literal 404
    gets the explicit not-found match, a request for which the tree finds
    no leaf gets no match; the two results differ, and both are returned
    values, not panics. *)
Theorem Route_explicit_404_distinct
        (router : Router) (req req' : Request)
        (leaf : pathtree.Leaf Route.t) (expansions : list string) :
  pathtree.Find (Tree router) (treePath (ReqMethod req) (URLPath req))
  = Some (leaf, expansions) ->
  (length expansions <= length (pathtree.Wildcards leaf))%nat ->
  Route.Action (pathtree.Value leaf) = "404" ->
  pathtree.Find (Tree router) (treePath (ReqMethod req') (URLPath req')) = None ->
  Route router req = Ok (Some notFound) /\
  RouteMatch.Action notFound = "404" /\
  Route router req' = Ok None /\
  Route router req <> Route router req'.
Proof.
  intros Hfind Hlen Haction Hnone. unfold Route. rewrite Hfind, Hnone.
  rewrite (resolve_404 _ _ Hlen Haction). done.
Qed.

(** The rule [GET /old/path 404] on the paths [/old/path] and
    [/unknown]. *)
Lemma Route_explicit_404_distinct_witness :
  Route (Examples.table ["GET /old/path 404"]) (mkRequest "GET" "/old/path")
  = Ok (Some notFound) /\
  RouteMatch.Action notFound = "404" /\
  Route (Examples.table ["GET /old/path 404"]) (mkRequest "GET" "/unknown")
  = Ok None /\
  Route (Examples.table ["GET /old/path 404"]) (mkRequest "GET" "/old/path")
  <> Route (Examples.table ["GET /old/path 404"]) (mkRequest "GET" "/unknown").
Proof.
  apply (Route_explicit_404_distinct
           _ _ _
           (leafAt "/GET/old/path"
                   (NewRoute "GET" "/old/path" "404" EmptyString "conf/routes" 0))
           []).
  - vm_compute. reflexivity.
  - simpl. lia.
  - reflexivity.
  - vm_compute. reflexivity.
Defined.

(** C9.  For a matched descriptor made by [NewRoute], the match panics
    exactly when the controller half or the method half of the action
    has a placeholder (the name after its last colon) that is not among
    the parameters captured from the path; otherwise it returns. *)
Theorem Route_panics_iff_placeholder_uncaptured
        (router : Router) (req : Request) (leaf : pathtree.Leaf Route.t)
        (expansions : list string) (params : gmap string (list string))
        (method path action fixedArgs routesPath : string) (line : Z) :
  pathtree.Find (Tree router) (treePath (ReqMethod req) (URLPath req))
  = Some (leaf, expansions) ->
  pathtree.Value leaf = NewRoute method path action fixedArgs routesPath line ->
  routeParams (pathtree.Wildcards leaf) expansions ∅ = Ok params ->
  is_panic (Route router req) <->
  (exists key, placeholder (Route.ControllerName (pathtree.Value leaf)) = Some key
               /\ params !! key = None)
  \/ (exists key, placeholder (Route.MethodName (pathtree.Value leaf)) = Some key
                  /\ params !! key = None).
Proof.
  intros Hfind Hvalue Hparams. unfold Route. rewrite Hfind.
  destruct (String.eqb_spec (Route.Action (pathtree.Value leaf)) "404")
    as [H404|H404].
  - rewrite resolve_404; [|by eapply routeParams_length|done].
    rewrite Hvalue in H404 |- *.
    destruct (NewRoute_404 _ _ _ _ _ _ H404) as [-> ->].
    split; [done|]. by intros [(key & ? & _) | (key & ? & _)].
  - rewrite (resolve_unfold _ _ _ Hparams) by by apply String.eqb_neq.
    assert (singletons params) as Hs.
    { apply (routeParams_singletons _ _ _ _ Hparams). intros key vs.
      by rewrite lookup_empty. }
    rewrite <- !(variablized_panic _ _ Hs).
    destruct (variablized (Route.ControllerName _) params); simpl;
      [|by intuition].
    destruct (variablized (Route.MethodName _) params); simpl; by intuition.
Qed.

(** The rule [GET /foo App.:action], a variablized action on a path
    without placeholders: the match panics. *)
Lemma Route_panics_iff_placeholder_uncaptured_witness :
  is_panic (Route (Examples.table ["GET /foo App.:action"])
                  (mkRequest "GET" "/foo")).
Proof.
  apply (Route_panics_iff_placeholder_uncaptured
           _ _
           (leafAt "/GET/foo"
                   (NewRoute "GET" "/foo" "App.:action" EmptyString "conf/routes" 0))
           [] ∅ "GET" "/foo" "App.:action" EmptyString "conf/routes" 0).
  - vm_compute. reflexivity.
  - reflexivity.
  - reflexivity.
  - right. exists "action". split; reflexivity.
Defined.

(** C10.  When the matched rule's action is the literal 404 the result
    is the one sentinel [notFound], whatever was captured from the path
    and whatever fixed arguments the rule declares: its parameters, fixed
    arguments, controller name and method name are all empty. *)
Theorem Route_404_discards_captures
        (router : Router) (req : Request) (leaf : pathtree.Leaf Route.t)
        (expansions : list string) :
  pathtree.Find (Tree router) (treePath (ReqMethod req) (URLPath req))
  = Some (leaf, expansions) ->
  (length expansions <= length (pathtree.Wildcards leaf))%nat ->
  Route.Action (pathtree.Value leaf) = "404" ->
  exists m,
    Route router req = Ok (Some m) /\ m = notFound /\
    RouteMatch.Params m = ∅ /\ RouteMatch.FixedParams m = [] /\
    RouteMatch.ControllerName m = EmptyString /\
    RouteMatch.MethodName m = EmptyString.
Proof.
  intros Hfind Hlen Haction. exists notFound. unfold Route. rewrite Hfind.
  by rewrite (resolve_404 _ _ Hlen Haction).
Qed.

(** The rule [GET /old/:id 404(x,y)] on the path [/old/5]: one value is
    captured and two fixed arguments are declared, none is returned. *)
Lemma Route_404_discards_captures_witness :
  let leaf := leafAt "/GET/old/:id"
                     (NewRoute "GET" "/old/:id" "404" "x,y" "conf/routes" 0) in
  Route.FixedParams (pathtree.Value leaf) = ["x"; "y"] /\
  pathtree.Find (Tree (Examples.table ["GET /old/:id 404(x,y)"])) "/GET/old/5"
  = Some (leaf, ["5"]) /\
  exists m,
    Route (Examples.table ["GET /old/:id 404(x,y)"]) (mkRequest "GET" "/old/5")
    = Ok (Some m) /\ m = notFound /\
    RouteMatch.Params m = ∅ /\ RouteMatch.FixedParams m = [] /\
    RouteMatch.ControllerName m = EmptyString /\
    RouteMatch.MethodName m = EmptyString.
Proof.
  intros leaf. split; [reflexivity|]. split; [vm_compute; reflexivity|].
  apply (Route_404_discards_captures _ _ leaf ["5"]).
  - vm_compute. reflexivity.
  - simpl. lia.
  - reflexivity.
Defined.

(** ** Building the table *)

Section TableFacts.

Variable W : World.

(** Every error return of [parseRoutes] returns nil routes. *)
Lemma parseLines_error getModuleRoutes routesPath content validate
      lines n routes routes' err :
  parseLines W getModuleRoutes routesPath content validate lines n routes
  = Some (routes', Some err) ->
  routes' = [].
Proof.
  revert n routes. induction lines as [|line lines IH]; intros n routes;
    cbn [parseLines]; [done|].
  destruct (_ || _); [apply IH|].
  destruct (Strings.HasPrefix _ _).
  - destruct (getModuleRoutes _ _) as [[moduleRoutes [e|]]|]; try done.
    + by intros [= <- _].
    + apply IH.
  - destruct (parseRouteLine _) as [[[[method path'] action] fixedArgs]|];
      [|apply IH].
    destruct validate; [|apply IH].
    destruct (validateRoute _ _); [by intros [= <- _] | apply IH].
Qed.

Lemma parseRoutesFile_error fuel routesPath validate routes err :
  parseRoutesFile W fuel routesPath validate = Some (routes, Some err) ->
  routes = [].
Proof.
  destruct fuel as [|fuel]; simpl; [done|].
  destruct (ReadFile W routesPath) as [content|description].
  - apply parseLines_error.
  - by intros [= <- _].
Qed.

(** Reading routes returns once the fuel covers the depth of the module
    includes: more fuel does not change a result, and a program whose
    modules are all inactive needs one unit. *)
Lemma parseLines_ext getModuleRoutes getModuleRoutes' routesPath content
      validate lines n routes result :
  (forall name v r, getModuleRoutes name v = Some r ->
                    getModuleRoutes' name v = Some r) ->
  parseLines W getModuleRoutes routesPath content validate lines n routes
  = Some result ->
  parseLines W getModuleRoutes' routesPath content validate lines n routes
  = Some result.
Proof.
  intros Hext. revert n routes.
  induction lines as [|line lines IH]; intros n routes;
    cbn [parseLines]; [done|].
  destruct (_ || _); [apply IH|].
  destruct (Strings.HasPrefix _ _).
  - destruct (getModuleRoutes _ _) as [[moduleRoutes [e|]]|] eqn:Hg; [| |done].
    + by rewrite (Hext _ _ _ Hg).
    + rewrite (Hext _ _ _ Hg). apply IH.
  - destruct (parseRouteLine _) as [[[[method path'] action] fixedArgs]|];
      [|apply IH].
    destruct validate; [|apply IH].
    destruct (validateRoute _ _); [done | apply IH].
Qed.

Lemma parseRoutesFile_more_fuel fuel routesPath validate result :
  parseRoutesFile W fuel routesPath validate = Some result ->
  parseRoutesFile W (S fuel) routesPath validate = Some result.
Proof.
  revert routesPath validate result.
  induction fuel as [|fuel IH]; intros routesPath validate result; [done|].
  cbn [parseRoutesFile].
  destruct (ReadFile W routesPath) as [content|description]; [|done].
  unfold parseRoutesWith. apply parseLines_ext.
  intros name v r. unfold getModuleRoutesWith.
  destruct (ModuleByName W name); [apply IH | done].
Qed.

Lemma parseLines_without_modules getModuleRoutes routesPath content validate
      lines n routes :
  (forall name v, exists r, getModuleRoutes name v = Some r) ->
  exists result,
    parseLines W getModuleRoutes routesPath content validate lines n routes
    = Some result.
Proof.
  intros Hg. revert n routes.
  induction lines as [|line lines IH]; intros n routes;
    cbn [parseLines]; [by eexists|].
  destruct (_ || _); [apply IH|].
  destruct (Strings.HasPrefix _ _).
  - destruct (Hg (Strings.drop 7 (Strings.TrimSpace line)) validate)
      as [[moduleRoutes [e|]] ->]; [by eexists | apply IH].
  - destruct (parseRouteLine _) as [[[[method path'] action] fixedArgs]|];
      [|apply IH].
    destruct validate; [|apply IH].
    destruct (validateRoute _ _); [by eexists | apply IH].
Qed.

Lemma Refresh_returns_without_modules router :
  (forall name, ModuleByName W name = None) ->
  exists router' err, Refresh W 1 router = Some (router', err).
Proof.
  intros Hm. unfold Refresh. cbn [parseRoutesFile].
  destruct (ReadFile W (path router)) as [content|description].
  - match goal with
    | |- context [parseRoutesWith W ?g ?p ?c ?v] =>
        destruct (parseLines_without_modules
                    g p c v (Strings.Split c "010"%char) 0 [])
          as [[routes [e|]] Hp]
    end.
    + intros name v. unfold getModuleRoutesWith. rewrite Hm. by eexists.
    + unfold parseRoutesWith. rewrite Hp. by eexists _, _.
    + unfold parseRoutesWith. rewrite Hp.
      destruct (updateTree W _) as [router' err]. by eexists _, _.
  - by eexists _, _.
Qed.

(** [Add] either fails and leaves the tree as it was, or appends the
    leaf of the key. *)
Lemma Add_cases (tree : pathtree.Node Route.t) key route :
  (exists msg, pathtree.Add tree key route = (tree, None, Some msg)) \/
  pathtree.Add tree key route
  = (pathtree.mkNode (pathtree.leaves tree ++ [leafAt key route]),
     Some (leafAt key route), None).
Proof.
  unfold pathtree.Add.
  destruct (negb _); [left; by eexists|].
  destruct (existsb _ _); [left; by eexists|].
  destruct (existsb _ _); [left; by eexists|].
  by right.
Qed.

(** What the loop of [updateTree] leaves behind: the routes are the
    given ones with [leaf] set; without an error the tree has gained
    every registration in order, and with an error it has gained the
    registrations up to the failing one only. *)
Lemma registerRoutes_leaves tree routes routes' tree' err :
  registerRoutes W tree routes = (routes', tree', err) ->
  Route.set_leaf None <$> routes' = Route.set_leaf None <$> routes /\
  match err with
  | None => pathtree.leaves tree' = pathtree.leaves tree ++ registrations routes
  | Some _ =>
      exists rest, rest <> [] /\
        pathtree.leaves tree ++ registrations routes
        = pathtree.leaves tree' ++ rest
  end.
Proof.
  revert tree routes' tree' err.
  induction routes as [|route routes IH]; intros tree routes' tree' err; simpl.
  - intros [= <- <- <-]. by rewrite app_nil_r.
  - unfold registrations. simpl. fold (registrations routes).
    destruct (Add_cases tree (Route.TreePath route) route) as [[msg ->] | ->].
    { intros [= <- <- <-]. split; [done|].
      eexists. split; [|done]. done. }
    destruct (String.eqb (Route.Method route) "GET").
    + set (tree1 := pathtree.mkNode _).
      destruct (Add_cases tree1 (treePath "HEAD" (Route.Path route)) route)
        as [[msg ->] | ->].
      { intros [= <- <- <-]. split; [done|]. subst tree1. simpl.
        eexists. split; [|by rewrite <- app_assoc]. done. }
      destruct (registerRoutes W _ routes) as [[routes2 tree2] err2] eqn:Hr.
      intros [= <- <- <-]. apply IH in Hr as [Hroutes Hleaves].
      split; [by rewrite !fmap_cons, Hroutes|].
      subst tree1. simpl in Hleaves. rewrite <- !app_assoc in Hleaves.
      destruct err2; [|done].
      destruct Hleaves as (rest & Hrest & Heq). exists rest. done.
    + destruct (registerRoutes W _ routes) as [[routes2 tree2] err2] eqn:Hr.
      intros [= <- <- <-]. apply IH in Hr as [Hroutes Hleaves].
      split; [by rewrite !fmap_cons, Hroutes|].
      simpl in Hleaves. rewrite <- !app_assoc in Hleaves.
      destruct err2; [|done].
      destruct Hleaves as (rest & Hrest & Heq). exists rest. done.
Qed.

End TableFacts.

(** C1 (as amended).  [Refresh] is not all-or-nothing.  When it returns
    an error from reading, parsing or validating the routes file, the
    tree is the one from before the call, so [Route] answers as before,
    but the list of routes has been replaced by the empty list.  When it
    returns an error from registering in the tree, the list of routes is
    the newly parsed one and the tree is a new one that holds the
    registrations made before the failing one, a proper prefix of the
    registrations of the new list. *)
Theorem Refresh_error_replaces_table
        (W : World) (fuel : nat) (router router' : Router) (err : Error.t) :
  Refresh W fuel router = Some (router', Some err) ->
  path router' = path router /\
  ((parseRoutesFile W fuel (path router) true = Some ([], Some err) /\
    Routes router' = [] /\ Tree router' = Tree router /\
    forall req, Route router' req = Route router req)
   \/
   (exists routes rest,
       parseRoutesFile W fuel (path router) true = Some (routes, None) /\
       Route.set_leaf None <$> Routes router' = Route.set_leaf None <$> routes /\
       rest <> [] /\
       registrations routes = pathtree.leaves (Tree router') ++ rest)).
Proof.
  unfold Refresh.
  destruct (parseRoutesFile W fuel (path router) true) as [[routes [e|]]|] eqn:Hp;
    [| |done].
  - intros [= <- <-]. apply parseRoutesFile_error in Hp as Hnil. subst routes.
    split; [done|]. left. done.
  - unfold updateTree. simpl.
    destruct (registerRoutes W pathtree.New routes) as [[routes' tree'] err']
      eqn:Hr.
    intros [= <- ->]. split; [done|]. right.
    apply registerRoutes_leaves in Hr as [Hroutes (rest & Hrest & Heq)].
    exists routes, rest. done.
Qed.

(** A live table whose routes file has gone. *)
Lemma Refresh_error_replaces_table_witness :
  let live := Examples.table ["GET / App.Index"] in
  let after := mkRouter [] (Tree live) "conf/routes" in
  let err := Error.mk "Failed to load routes file" "no such file or directory"
                      EmptyString 0 [] in
  path after = path live /\
  ((parseRoutesFile Examples.noFile 1 (path live) true = Some ([], Some err) /\
    Routes after = [] /\ Tree after = Tree live /\
    forall req, Route after req = Route live req)
   \/
   (exists routes rest,
       parseRoutesFile Examples.noFile 1 (path live) true = Some (routes, None) /\
       Route.set_leaf None <$> Routes after = Route.set_leaf None <$> routes /\
       rest <> [] /\
       registrations routes = pathtree.leaves (Tree after) ++ rest)).
Proof.
  intros live after err.
  apply (Refresh_error_replaces_table Examples.noFile 1 live after err).
  vm_compute. reflexivity.
Defined.

(** C1 as stated fails.  After a [Refresh] that reports a missing routes
    file the list of routes is not the one from before the call, and
    [Reverse] no longer finds the route.  After a [Refresh] that reports
    a conflict in the tree (the new file declares [GET /b App.B] twice)
    [Route] no longer matches the path that the table served before. *)
Lemma Refresh_all_or_nothing_counterexample :
  let live := Examples.table ["GET /a App.A"] in
  (exists after err,
      Refresh Examples.noFile 1 live = Some (after, Some err) /\
      Routes after <> Routes live /\
      Reverse live "App.A" ∅ <> Ok None /\
      Reverse after "App.A" ∅ = Ok None) /\
  (exists after err,
      Refresh (Examples.world ["GET /b App.B"; "GET /b App.B"]) 1 live
      = Some (after, Some err) /\
      Route live (mkRequest "GET" "/a") <> Ok None /\
      Route after (mkRequest "GET" "/a") = Ok None).
Proof.
  intros live. split.
  - eexists _, _. split; [vm_compute; reflexivity|].
    split; [|split].
    + vm_compute. discriminate.
    + vm_compute. discriminate.
    + vm_compute. reflexivity.
  - eexists _, _. split; [vm_compute; reflexivity|]. split.
    + vm_compute. discriminate.
    + vm_compute. reflexivity.
Qed.

(** ** Keys and lookups in the prefix tree *)

Section TreeFacts.
Import Strings StringFacts pathtree.

Lemma treePath_segment method path :
  treePath method path = "/" +:+ methodSegment method +:+ path.
Proof. reflexivity. Qed.


Lemma methodSegment_count method :
  count method "/"%char = O -> count (methodSegment method) "/"%char = O.
Proof. unfold methodSegment. by destruct (String.eqb method "*"). Qed.

Lemma drop_last_empty_cons el els :
  els <> [] -> drop_last_empty (el :: els) = el :: drop_last_empty els.
Proof. destruct els; [done|]. by destruct el. Qed.

(** The segments of a tree path: the method's segment, then the
    segments of the path. *)
Lemma splitPath_treePath method path :
  count method "/"%char = O -> HasPrefix path "/" = true ->
  splitPath (treePath method path) = methodSegment method :: splitPath path.
Proof.
  intros Hm Hp. apply prefix_slash in Hp as [q ->].
  rewrite treePath_segment. unfold splitPath.
  change ("/" +:+ methodSegment method +:+ String "/"%char q)
    with (String "/"%char (methodSegment method +:+ String "/"%char q)).
  cbn [Split]. rewrite !Ascii.eqb_refl.
  rewrite (Split_app _ _ _ (methodSegment_count _ Hm)).
  cbn [drop_first_empty].
  apply drop_last_empty_cons, Split_nonempty.
Qed.

Lemma pattern_cons el els :
  is_star el = false -> pattern (el :: els) = el :: pattern els.
Proof. simpl. by intros ->. Qed.

(** A literal first segment matches that segment only. *)
Lemma matchElems_literal el pat e els :
  is_star el = false -> is_colon el = false ->
  matchElems (el :: pat) (e :: els)
  = if String.eqb el e then matchElems pat els else None.
Proof. simpl. by intros -> ->. Qed.



(** The leaves of a route, spelled out for a well-formed route. *)
Lemma leafAt_treePath method path route :
  count method "/"%char = O -> HasPrefix path "/" = true ->
  elements (leafAt (treePath method path) route)
  = pattern (methodSegment method :: splitPath path).
Proof. intros Hm Hp. unfold leafAt. simpl. by rewrite splitPath_treePath. Qed.


Lemma find_cons {V : Type} (l : Leaf V) ls els :
  find (l :: ls) els
  = match matchElems (elements l) els with
    | Some exps => Some (l, exps)
    | None => find ls els
    end.
Proof. reflexivity. Qed.

Lemma find_some {V : Type} (ls : list (Leaf V)) els l exps :
  find ls els = Some (l, exps) ->
  l ∈ ls /\ matchElems (elements l) els = Some exps.
Proof.
  induction ls as [|l0 ls IH]; [done|]. rewrite find_cons.
  destruct (matchElems (elements l0) els) as [exps0|] eqn:E.
  - intros [= <- <-]. split; [apply elem_of_cons; by left | done].
  - intros [Hl Hm]%IH. split; [apply elem_of_cons; by right | done].
Qed.

(** A match captures one value for each placeholder of the pattern. *)
Lemma matchElems_length pat els exps :
  matchElems (pattern pat) els = Some exps ->
  length exps = length (wildcards (pattern pat)).
Proof.
  revert els exps. induction pat as [|p pat IH]; intros els exps.
  - destruct els; [by intros [= <-] | done].
  - cbn [pattern]. destruct (is_star p) eqn:Hstar.
    + destruct els as [|e els]; [done|]. cbn [matchElems]. rewrite Hstar.
      intros [= <-]. unfold wildcards. cbn [omap list_omap].
      by rewrite Hstar, orb_true_r.
    + destruct els as [|e els]; [done|]. cbn [matchElems]. rewrite Hstar.
      unfold wildcards. cbn [omap list_omap]. rewrite Hstar, orb_false_r.
      destruct (is_colon p).
      * destruct (matchElems (pattern pat) els) as [exps'|] eqn:E; [|done].
        intros [= <-]. simpl. f_equal. by apply (IH els).
      * destruct (String.eqb p e); [|done]. apply IH.
Qed.

Lemma registrations_leafAt routes l :
  l ∈ registrations routes -> exists key route, l = leafAt key route.
Proof.
  unfold registrations. rewrite list_elem_of_bind.
  intros (route & Hl & _). apply elem_of_cons in Hl as [-> | Hl]; [by eauto|].
  destruct (String.eqb _ _); [|by apply elem_of_nil in Hl].
  apply list_elem_of_singleton in Hl as ->. by eauto.
Qed.


End TreeFacts.

(** In a table that [updateTree] has registered without an error, a
    lookup captures exactly one value for each placeholder of the leaf
    it finds, so that [Route] builds its parameter map without a
    panic. *)
Theorem updateTree_expansions_fit
        (W : World) (router router' : Router) (key : string)
        (leaf : pathtree.Leaf Route.t) (expansions : list string) :
  updateTree W router = (router', None) ->
  pathtree.Find (Tree router') key = Some (leaf, expansions) ->
  length expansions = length (pathtree.Wildcards leaf) /\
  exists params,
    routeParams (pathtree.Wildcards leaf) expansions ∅ = Ok params.
Proof.
  unfold updateTree.
  destruct (registerRoutes W pathtree.New (Routes router))
    as [[routes' tree'] err'] eqn:Hr.
  intros [= <- ->]. cbn [Tree].
  apply registerRoutes_leaves in Hr as [_ Hleaves]. simpl in Hleaves.
  unfold pathtree.Find. destruct (pathtree.rooted key); [|done].
  rewrite Hleaves. intros [Hin Hmatch]%find_some.
  apply registrations_leafAt in Hin as (key' & route & ->).
  apply matchElems_length in Hmatch.
  split; [done|]. apply routeParams_ok. unfold leafAt in *. simpl in *. lia.
Qed.




(** ** The reverse router *)

Section ReverseFacts.
Import Strings StringFacts.

Lemma length_drop n s : String.length (drop n s) = (String.length s - n)%nat.
Proof.
  revert s. induction n as [|n IH]; intros [|c s]; simpl; try done.
Qed.

Lemma index_lt s sep i : index_nat s sep = Some i -> (i < String.length s)%nat.
Proof.
  revert i. induction s as [|c s IH]; simpl; intros i; [done|].
  destruct (Ascii.eqb c sep); [intros [= <-]; lia|].
  destruct (index_nat s sep) as [j|]; [|done].
  intros [= <-]. specialize (IH j eq_refl). lia.
Qed.






(** [Reverse] returns through the first candidate of the list, when the
    tests of the routes before it come out false. *)
Lemma reverseRoutes_first router before route after action
      controllerName methodName argValues :
  Forall (fun r => candidate r controllerName methodName = Ok false) before ->
  candidate route controllerName methodName = Ok true ->
  reverseRoutes router (before ++ route :: after) action controllerName
                methodName argValues
  = let* definition :=
      reverseThrough router route action controllerName methodName argValues in
    Ok (Some definition).
Proof.
  intros Hbefore Hroute. induction before as [|r before IH]; simpl.
  - by rewrite Hroute.
  - apply Forall_cons in Hbefore as [-> Hbefore]. simpl. by apply IH.
Qed.

Lemma reverseRoutes_none router routes action controllerName methodName argValues :
  Forall (fun r => candidate r controllerName methodName = Ok false) routes ->
  reverseRoutes router routes action controllerName methodName argValues
  = Ok None.
Proof.
  induction 1 as [|r routes Hr _ IH]; simpl; [done|]. by rewrite Hr.
Qed.

(** After [updateTree] without an error every route has its leaf. *)
Lemma registerRoutes_leaf_set W tree routes routes' tree' :
  registerRoutes W tree routes = (routes', tree', None) ->
  Forall (fun route => Route.leaf route <> None) routes'.
Proof.
  revert tree routes' tree'.
  induction routes as [|route routes IH]; intros tree routes' tree'; simpl.
  - by intros [= <- _].
  - destruct (Add_cases tree (Route.TreePath route) route) as [[msg ->] | ->];
      [done|].
    destruct (String.eqb (Route.Method route) "GET").
    + destruct (Add_cases (pathtree.mkNode
                             (pathtree.leaves tree
                                ++ [leafAt (Route.TreePath route) route]))
                          (treePath "HEAD" (Route.Path route)) route)
        as [[msg ->] | ->]; [done|].
      destruct (registerRoutes W _ routes) as [[routes2 tree2] err2] eqn:Hr.
      intros [= <- <- ->]. constructor; [done | by eapply IH].
    + destruct (registerRoutes W _ routes) as [[routes2 tree2] err2] eqn:Hr.
      intros [= <- <- ->]. constructor; [done | by eapply IH].
Qed.

End ReverseFacts.



Section CandidateFacts.
Import Strings StringFacts.

Lemma HasPrefix_take s prefix :
  HasPrefix s prefix = String.eqb prefix (take (String.length prefix) s).
Proof.
  revert s. induction prefix as [|c prefix IH]; intros s; [by destruct s|].
  destruct s as [|d s]; [done|]. cbn [HasPrefix String.length take String.eqb].
  by rewrite IH.
Qed.

(** Where the slices are in range, the test of line 370-371 is the
    prefix test. *)
Lemma prefixDiffers_halfMatches name requested :
  LastIndex name ":"%char <= len requested ->
  last_index_nat name ":"%char <> None ->
  prefixDiffers (LastIndex name ":"%char) name requested
  = Ok (negb (halfMatches name requested)).
Proof.
  unfold prefixDiffers, halfMatches, LastIndex.
  destruct (last_index_nat name ":") as [i|] eqn:Hi; [|done]. intros Hle _.
  pose proof (last_index_lt _ _ _ Hi) as Hlt.
  rewrite HasPrefix_take, length_take by lia.
  destruct (Z.ltb_spec 0 (Z.of_nat i)).
  - rewrite !slice_to_ok by (unfold len in *; lia). simpl bind.
    by rewrite Nat2Z.id.
  - assert (i = O) as -> by lia. by destruct name, requested.
Qed.

(** Where no slice is out of range, the loop's tests select the
    eligible descriptors. *)
Lemma candidate_eligible route controllerName methodName :
  LastIndex (Route.ControllerName route) ":"%char <= len controllerName ->
  LastIndex (Route.MethodName route) ":"%char <= len methodName ->
  candidate route controllerName methodName
  = Ok (eligible route controllerName methodName).
Proof.
  intros Hc Hm. unfold candidate, eligible.
  destruct (String.eqb (Route.ControllerName route) EmptyString); [done|].
  destruct (String.eqb (Route.MethodName route) EmptyString); [done|].
  cbn [orb negb andb].
  pose proof (LastIndex_range (Route.ControllerName route) ":"%char) as Hrc.
  pose proof (LastIndex_range (Route.MethodName route) ":"%char) as Hrm.
  pose proof (prefixDiffers_halfMatches _ _ Hc) as Hpc.
  pose proof (prefixDiffers_halfMatches _ _ Hm) as Hpm.
  unfold LastIndex, halfMatches in *.
  destruct (last_index_nat (Route.ControllerName route) ":") as [i|] eqn:Hi,
           (last_index_nat (Route.MethodName route) ":") as [j|] eqn:Hj.
  - destruct (Z.eqb_spec (Z.of_nat i) (-1)); [lia|].
    destruct (Z.eqb_spec (Z.of_nat j) (-1)); [lia|]. cbn [andb orb].
    destruct (Z.leb_spec (len (Route.ControllerName route)) (Z.of_nat i));
      [lia|].
    destruct (Z.leb_spec (len (Route.MethodName route)) (Z.of_nat j));
      [lia|].
    rewrite !andb_false_r. cbn [orb].
    rewrite Hpc, Hpm by done. simpl bind.
    destruct (HasPrefix controllerName _); [|done]. simpl.
    by rewrite negb_involutive.
  - destruct (Z.eqb_spec (Z.of_nat i) (-1)); [lia|].
    change (-1 =? -1) with true. cbn [andb orb].
    destruct (String.eqb (Route.MethodName route) methodName);
      cbn [negb]; [|by rewrite andb_false_r].
    destruct (Z.leb_spec (len (Route.ControllerName route)) (Z.of_nat i));
      [lia|].
    rewrite !andb_false_r. cbn [orb andb].
    rewrite Hpc by done. simpl bind.
    destruct (HasPrefix controllerName _); [|done]. done.
  - change (-1 =? -1) with true. cbn [andb orb].
    destruct (String.eqb (Route.ControllerName route) controllerName);
      cbn [negb orb]; [|done].
    destruct (Z.eqb_spec (Z.of_nat j) (-1)); [lia|]. cbn [andb orb].
    destruct (Z.leb_spec (len (Route.MethodName route)) (Z.of_nat j));
      [lia|].
    rewrite !andb_false_r. cbn [orb andb].
    rewrite Hpm by done. simpl. by rewrite negb_involutive.
  - change (-1 =? -1) with true. cbn [andb orb].
    destruct (String.eqb (Route.ControllerName route) controllerName);
      cbn [negb orb]; [|done].
    destruct (String.eqb (Route.MethodName route) methodName);
      cbn [negb orb]; done.
Qed.

(** A requested half shorter than a descriptor's literal prefix makes
    the test panic, unless an earlier test has skipped the route. *)
Lemma prefixDiffers_short name requested :
  len requested < LastIndex name ":"%char ->
  is_panic (prefixDiffers (LastIndex name ":"%char) name requested).
Proof.
  intros Hlt. unfold prefixDiffers.
  pose proof (LastIndex_range name ":"%char) as Hr.
  destruct (Z.ltb_spec 0 (LastIndex name ":")); [|unfold len in *; lia].
  rewrite slice_to_ok by lia. simpl bind.
  pose proof (slice_to_short requested _ Hlt) as Hp.
  by destruct (slice_to requested _).
Qed.

End CandidateFacts.

(** X3.  Where every slice is in range, [Reverse] scans the routes in
    declaration order and returns through the first eligible one. *)
Theorem Reverse_first_eligible
        (router : Router) (action controllerName methodName : string)
        (argValues : gmap string string) (before after : list Route.t)
        (route : Route.t) :
  Strings.Split action "."%char = [controllerName; methodName] ->
  Routes router = before ++ route :: after ->
  Forall (fun r =>
            Strings.LastIndex (Route.ControllerName r) ":"%char
            <= Strings.len controllerName /\
            Strings.LastIndex (Route.MethodName r) ":"%char
            <= Strings.len methodName) (before ++ [route]) ->
  Forall (fun r => eligible r controllerName methodName = false) before ->
  eligible route controllerName methodName = true ->
  Reverse router action argValues
  = let* definition :=
      reverseThrough router route action controllerName methodName argValues in
    Ok (Some definition).
Proof.
  intros Hsplit Hroutes Hbounds Hbefore Hroute.
  unfold Reverse. rewrite Hsplit, Hroutes.
  apply Forall_app in Hbounds as [Hb Hr].
  apply Forall_cons in Hr as [[Hrc Hrm] _].
  apply reverseRoutes_first.
  - clear -Hb Hbefore. induction before as [|r before IH]; [done|].
    apply Forall_cons in Hb as [[Hc Hm] Hb].
    apply Forall_cons in Hbefore as [He Hbefore].
    constructor; [|by apply IH]. by rewrite candidate_eligible, He.
  - by rewrite candidate_eligible, Hroute.
Qed.

(** C5, at the input where the code departs from it.  The table declares
    [GET /admin/:ctrl Module:ctrl.Index] and then [GET / App.Index].  For
    the action [App.Index] the second descriptor is the only eligible
    one, and alone in a table it is the one [Reverse] returns through;
    here [Reverse] panics on the first descriptor, whose literal prefix
    [Module] is longer than the requested [App]. *)
Theorem Reverse_panics_before_first_candidate :
  let router := Examples.table ["GET /admin/:ctrl Module:ctrl.Index";
                                "GET / App.Index"] in
  (exists first second,
      Routes router = [first; second] /\
      eligible first "App" "Index" = false /\
      eligible second "App" "Index" = true /\
      is_panic (candidate first "App" "Index")) /\
  Reverse router "App.Index" ∅ = Panic "slice bounds out of range" /\
  exists definition,
    Reverse (Examples.table ["GET / App.Index"]) "App.Index" ∅
    = Ok (Some definition) /\
    ActionDefinition.Url definition = "/".
Proof.
  intros router. split; [|split].
  - eexists _, _. split; [vm_compute; reflexivity|].
    split; [reflexivity|]. split; [reflexivity|]. vm_compute. done.
  - vm_compute. reflexivity.
  - eexists. split; [vm_compute; reflexivity | reflexivity].
Qed.

(** C4, at the input where the code departs from it.  The routes file
    declares [GET foo/bar App.Index], whose path does not start with a
    slash.  [Refresh] returns no error; the descriptor is in the list of
    routes and in the tree, under the key [/GETfoo/bar]; and a request
    with the method [GETfoo] for the path [/bar] is matched by it. *)
Theorem relative_path_is_registered :
  let lines := ["GET foo/bar App.Index"] in
  let router := Examples.table lines in
  Strings.HasPrefix "foo/bar" "/" = false /\
  Refresh (Examples.world lines) 1 (NewRouter "conf/routes") = Some (router, None) /\
  Route.Path <$> Routes router = ["foo/bar"] /\
  (exists leaf,
      pathtree.Find (Tree router) "/GETfoo/bar" = Some (leaf, []) /\
      Route.Path (pathtree.Value leaf) = "foo/bar") /\
  Route router (mkRequest "GETfoo" "/bar")
  = Ok (Some (RouteMatch.mk EmptyString EmptyString EmptyString [] ∅)).
Proof.
  intros lines router. split; [reflexivity|].
  split; [vm_compute; reflexivity|]. split; [reflexivity|].
  split; [|vm_compute; reflexivity].
  eexists. split; [vm_compute; reflexivity | reflexivity].
Qed.

(** ** More on byte strings *)

Section MoreStringFacts.
Import Strings StringFacts.

Lemma index_app prefix sep rest :
  count prefix sep = O ->
  index_nat (prefix +:+ String sep rest) sep = Some (String.length prefix).
Proof.
  induction prefix as [|c prefix IH]; rewrite ?app_nil_l, ?app_cons;
    cbn [index_nat count String.length].
  - by rewrite Ascii.eqb_refl.
  - destruct (Ascii.eqb c sep); [done|]. intros H. by rewrite IH.
Qed.

(** The byte at the first separator, and what is before it. *)
Lemma index_drop s sep i :
  index_nat s sep = Some i ->
  drop i s = String sep (drop (S i) s) /\ count (take i s) sep = O.
Proof.
  revert i. induction s as [|c s IH]; intros i; cbn [index_nat]; [done|].
  destruct (Ascii.eqb c sep) eqn:Hc.
  - intros [= <-]. apply Ascii.eqb_eq in Hc as ->. done.
  - destruct (index_nat s sep) as [j|]; [|done]. intros [= <-].
    destruct (IH j eq_refl) as [Hs Hn]. cbn [take drop count].
    by rewrite Hc.
Qed.

Lemma index_none s sep : index_nat s sep = None <-> count s sep = O.
Proof.
  induction s as [|c s IH]; cbn [index_nat count]; [done|].
  destruct (Ascii.eqb c sep); [done|].
  destruct (index_nat s sep) as [j|].
  - split; [done|]. intros H. by apply IH in H.
  - split; [|done]. intros _. by apply IH.
Qed.

Lemma drop_S_app prefix c rest :
  drop (S (String.length prefix)) (prefix +:+ String c rest) = rest.
Proof.
  induction prefix as [|d prefix IH]; [done|]. rewrite app_cons. apply IH.
Qed.

Lemma HasPrefix_app s prefix : HasPrefix (prefix +:+ s) prefix = true.
Proof.
  induction prefix as [|c prefix IH]; [done|]. rewrite app_cons.
  cbn [HasPrefix]. by rewrite Ascii.eqb_refl.
Qed.

Lemma take_drop n s : take n s +:+ drop n s = s.
Proof.
  revert s. induction n as [|n IH]; intros [|c s]; try done.
  cbn [take drop]. by rewrite app_cons, IH.
Qed.

(** What [untreePath] returns, for every argument: the slices are within
    bounds, and the url is a slash or starts at the second slash. *)
Lemma untreePath_cases path :
  (untreePath path = Ok (path, "/") /\
   (path = EmptyString \/ count (drop 1 path) "/"%char = O)) \/
  (exists i,
      index_nat (drop 1 path) "/"%char = Some i /\
      untreePath path = Ok (take i path, drop (S i) path) /\
      HasPrefix (drop (S i) path) "/" = true).
Proof.
  unfold untreePath. destruct (Z.eqb_spec (len path) 0) as [H0|H0].
  { left. split; [done|]. left. destruct path; [done|]. unfold len in H0.
    simpl in H0. lia. }
  assert (0 < len path) as Hlen by (unfold len in *; lia).
  rewrite slice_from_ok by lia. simpl bind. change (Z.to_nat 1) with 1%nat.
  unfold Index. destruct (index_nat (drop 1 path) "/") as [i|] eqn:Hi.
  - right. exists i. split; [done|].
    pose proof (index_lt _ _ _ Hi) as Hlt. rewrite length_drop in Hlt.
    destruct (Z.eqb_spec (Z.of_nat i) (-1)); [lia|].
    rewrite slice_to_ok by (unfold len in *; lia). simpl bind.
    rewrite slice_from_ok by (unfold len in *; lia). simpl bind.
    rewrite Nat2Z.id. replace (Z.to_nat (Z.of_nat i + 1)) with (S i) by lia.
    split; [done|].
    destruct path as [|c path]; [done|]. cbn [drop] in *.
    apply index_drop in Hi as [-> _]. cbn [HasPrefix]. by rewrite Ascii.eqb_refl.
  - left. split; [done|]. right. by apply index_none.
Qed.

End MoreStringFacts.

(** X1.  [untreePath] undoes [treePath] on the url: for a method without
    a slash and a path that starts with a slash, the url of the tree path
    is the path.  The method it returns is cut one byte short: the slash
    and the method's segment without its last byte. *)
Theorem untreePath_treePath (method path : string) :
  Strings.count method "/"%char = O ->
  Strings.HasPrefix path "/" = true ->
  untreePath (treePath method path)
  = Ok (Strings.take (String.length (methodSegment method))
                     ("/" +:+ methodSegment method),
        path).
Proof.
  intros Hm Hp. apply StringFacts.prefix_slash in Hp as [q ->].
  apply methodSegment_count in Hm. rewrite treePath_segment.
  set (m := methodSegment method) in *.
  destruct (untreePath_cases ("/" +:+ m +:+ String "/"%char q))
    as [[_ [H|H]] | (i & Hi & -> & _)].
  - done.
  - change (Strings.drop 1 ("/" +:+ m +:+ String "/"%char q))
      with (m +:+ String "/"%char q) in H.
    apply index_none in H. by rewrite (index_app _ _ _ Hm) in H.
  - change (Strings.drop 1 ("/" +:+ m +:+ String "/"%char q))
      with (m +:+ String "/"%char q) in Hi.
    rewrite (index_app _ _ _ Hm) in Hi. injection Hi as <-.
    change ("/" +:+ m +:+ String "/"%char q)
      with (String "/"%char (m +:+ String "/"%char q)).
    cbn [Strings.drop]. f_equal. f_equal.
    + change ("/" +:+ m) with (String "/"%char m).
      clear. destruct m as [|c m]; [done|]. cbn [String.length Strings.take].
      f_equal. rewrite StringFacts.app_cons.
      clear. revert c. induction m as [|d m IH]; intros c; [done|].
      cbn [String.length Strings.take]. rewrite StringFacts.app_cons.
      f_equal. apply IH.
    + clear. induction m as [|c m IH]; [done|].
      rewrite StringFacts.app_cons. apply IH.
Qed.

(** The tree paths [/GET/item/5] and [/:METHOD/any]. *)
Lemma untreePath_treePath_witness :
  untreePath (treePath "GET" "/item/5") = Ok ("/GE", "/item/5") /\
  untreePath (treePath "*" "/any") = Ok ("/:METHO", "/any").
Proof.
  split.
  - exact (untreePath_treePath "GET" "/item/5" eq_refl eq_refl).
  - exact (untreePath_treePath "*" "/any" eq_refl eq_refl).
Defined.

(** ** More on the reverse router *)

Section MoreReverseFacts.
Import Strings StringFacts.

Lemma HasPrefix_app_l s t prefix :
  HasPrefix s prefix = true -> HasPrefix (s +:+ t) prefix = true.
Proof.
  revert s. induction prefix as [|c prefix IH]; intros s; [done|].
  destruct s as [|d s]; [done|]. rewrite app_cons. cbn [HasPrefix].
  destruct (Ascii.eqb c d); [apply IH | done].
Qed.

(** A definition that the loop returns comes from a route of the list
    that passed the tests. *)
Lemma reverseRoutes_some router routes action controllerName methodName
      argValues definition :
  reverseRoutes router routes action controllerName methodName argValues
  = Ok (Some definition) ->
  exists route,
    route ∈ routes /\
    candidate route controllerName methodName = Ok true /\
    reverseThrough router route action controllerName methodName argValues
    = Ok definition.
Proof.
  induction routes as [|r routes IH]; cbn [reverseRoutes]; [done|].
  destruct (candidate r controllerName methodName) as [[]|] eqn:Hc; simpl bind.
  - destruct (reverseThrough _ r _ _ _ _) as [d|] eqn:Hd; [|done].
    intros [= <-]. exists r. split; [apply elem_of_cons; by left | done].
  - intros (route & Hin & H)%IH. exists route.
    split; [apply elem_of_cons; by right | done].
  - done.
Qed.

Lemma insertOriginal_keeps w name requested argValues argValues' key :
  insertOriginal w name requested argValues = Ok argValues' ->
  is_Some (argValues !! key) -> is_Some (argValues' !! key).
Proof.
  unfold insertOriginal. destruct (negb _); [|by intros [= <-]].
  destruct (slice_from name _) as [k|]; [|done].
  destruct (slice_from requested _) as [v|]; [|done]. simpl.
  intros [= <-] Hk. rewrite lookup_insert. by case_decide.
Qed.

(** The fields of a definition that [reverseThrough] returns. *)
Lemma reverseThrough_fields router route action controllerName methodName
      argValues definition :
  reverseThrough router route action controllerName methodName argValues
  = Ok definition ->
  ActionDefinition.Action definition = action /\
  ActionDefinition.Host definition = "TODO" /\
  ActionDefinition.Star definition = String.eqb (Route.Method route) "*" /\
  ActionDefinition.Method definition
  = (if String.eqb (Route.Method route) "*" then "GET" else Route.Method route) /\
  HasPrefix (ActionDefinition.Url definition) "/" = true /\
  (forall key, is_Some (argValues !! key) ->
               is_Some (ActionDefinition.Args definition !! key)).
Proof.
  unfold reverseThrough.
  destruct (insertOriginal _ (Route.ControllerName route) _ _) as [args1|] eqn:H1;
    [|done].
  simpl bind.
  destruct (insertOriginal _ (Route.MethodName route) _ _) as [args2|] eqn:H2;
    [|done].
  simpl bind.
  destruct (pathtree.Reverse _ _ _) as [[[path unused] missing]|]; [|done].
  simpl bind.
  destruct (untreePath_cases path) as [[Hu _] | (i & _ & Hu & Hp)];
    rewrite Hu; simpl bind; intros [= <-];
    cbn [ActionDefinition.Action ActionDefinition.Host ActionDefinition.Star
         ActionDefinition.Method ActionDefinition.Url ActionDefinition.Args snd];
    (repeat split; [| intros key Hk;
                      by eapply insertOriginal_keeps, insertOriginal_keeps]).
  - by destruct (bool_decide _).
  - destruct (bool_decide _); [done|]. by apply HasPrefix_app_l.
Qed.

End MoreReverseFacts.

(** X2.  Every definition that [Reverse] returns echoes the requested
    action, has the host TODO and a url that starts with a slash, keeps
    every argument it was given, and comes from a route of the table that
    passed the loop's tests: its method is that route's, except that the
    wildcard method is reported as GET with [Star] set. *)
Theorem Reverse_definition
        (router : Router) (action : string) (argValues : gmap string string)
        (definition : ActionDefinition.t) :
  Reverse router action argValues = Ok (Some definition) ->
  ActionDefinition.Action definition = action /\
  ActionDefinition.Host definition = "TODO" /\
  Strings.HasPrefix (ActionDefinition.Url definition) "/" = true /\
  (forall key, is_Some (argValues !! key) ->
               is_Some (ActionDefinition.Args definition !! key)) /\
  exists route controllerName methodName,
    route ∈ Routes router /\
    Strings.Split action "."%char = [controllerName; methodName] /\
    candidate route controllerName methodName = Ok true /\
    ActionDefinition.Star definition = String.eqb (Route.Method route) "*" /\
    ActionDefinition.Method definition
    = (if String.eqb (Route.Method route) "*" then "GET" else Route.Method route).
Proof.
  unfold Reverse.
  destruct (Strings.Split action ".") as [|c [|m [|x parts]]] eqn:Hsplit;
    try done.
  intros (route & Hin & Hc & Hd)%reverseRoutes_some.
  destruct (reverseThrough_fields _ _ _ _ _ _ _ Hd)
    as (Ha & Hh & Hs & Hm & Hu & Hk).
  repeat split; try done. by exists route, c, m.
Qed.

(** The table of [POST /item/:id App.Save]: reversing [App.Save] with the
    arguments [id] and [sort]. *)
Lemma Reverse_definition_witness :
  let router := Examples.table ["POST /item/:id App.Save"] in
  let argValues : gmap string string :=
    <["id" := "5"]> (<["sort" := "asc"]> ∅) in
  exists definition,
    Reverse router "App.Save" argValues = Ok (Some definition) /\
    ActionDefinition.Url definition = "/item/5?sort=asc" /\
    ActionDefinition.Method definition = "POST" /\
    ActionDefinition.Action definition = "App.Save" /\
    Strings.HasPrefix (ActionDefinition.Url definition) "/" = true.
Proof.
  intros router argValues.
  destruct (Reverse router "App.Save" argValues) as [[definition|]|] eqn:Hr;
    [|vm_compute in Hr; discriminate Hr..].
  exists definition.
  destruct (Reverse_definition router "App.Save" argValues definition Hr)
    as (Ha & _ & Hu & _).
  vm_compute in Hr. injection Hr as <-. done.
Defined.

(** The table of [GET / App.Index] and [GET /admin/:ctrl
    Module:ctrl.Index]: the action [Moduleusers.Index] reverses through
    the second route. *)
Lemma Reverse_first_eligible_witness :
  exists definition,
    Reverse (Examples.table ["GET / App.Index";
                             "GET /admin/:ctrl Module:ctrl.Index"])
            "Moduleusers.Index" ∅ = Ok (Some definition) /\
    ActionDefinition.Url definition = "/admin/users" /\
    ActionDefinition.Args definition !! "ctrl" = Some "users".
Proof.
  set (index := NewRoute "GET" "/" "App.Index" EmptyString "conf/routes" 0).
  set (admin := NewRoute "GET" "/admin/:ctrl" "Module:ctrl.Index" EmptyString
                         "conf/routes" 1).
  rewrite (Reverse_first_eligible
             _ "Moduleusers.Index" "Moduleusers" "Index" ∅
             [Route.set_leaf (Some (leafAt "/GET/" index)) index] []
             (Route.set_leaf (Some (leafAt "/GET/admin/:ctrl" admin)) admin)).
  - eexists. split; [vm_compute; reflexivity|]. split; reflexivity.
  - reflexivity.
  - vm_compute. reflexivity.
  - repeat constructor; vm_compute; discriminate.
  - repeat constructor.
  - reflexivity.
Defined.

Section RoundTripFacts.
Import Strings StringFacts.

Lemma candidate_unnamed route controllerName methodName :
  Route.ControllerName route = EmptyString \/ Route.MethodName route = EmptyString ->
  candidate route controllerName methodName = Ok false.
Proof.
  unfold candidate. intros [-> | ->]; [done|].
  by destruct (String.eqb (Route.ControllerName route) EmptyString).
Qed.

(** The names of a descriptor made from a relative path, or from an
    action that does not have exactly one dot, are empty. *)
Lemma NewRoute_unnamed method path action fixedArgs routesPath line :
  HasPrefix path "/" = false \/ count action "."%char <> 1%nat ->
  Route.ControllerName (NewRoute method path action fixedArgs routesPath line)
  = EmptyString.
Proof.
  unfold NewRoute. cbn [Route.Path].
  destruct (HasPrefix path "/"); cbn [negb]; [|done].
  intros [H|H]; [done|].
  pose proof (Split_length action "."%char) as Hl.
  destruct (Split action ".") as [|p0 [|p1 [|p2 ps]]]; simpl in *; try done.
  lia.
Qed.

(** One half of an action, forward and back: the resolved half passes
    the reverse router's test, and the value written back under the
    placeholder's name is the one that was substituted. *)
Lemma half_round_trip name params resolved :
  variablized name params = Ok resolved ->
  LastIndex name ":"%char <= len resolved /\
  halfMatches name resolved = true /\
  forall argValues,
    insertOriginal (LastIndex name ":"%char) name resolved argValues
    = match placeholder name with
      | None => Ok argValues
      | Some key =>
          let* v := firstValue params key in Ok (<[key := v]> argValues)
      end.
Proof.
  rewrite variablized_unfold. unfold placeholder, halfMatches, LastIndex,
    insertOriginal.
  destruct (last_index_nat name ":") as [i|] eqn:Hi; cbn [fmap option_fmap option_map].
  - pose proof (last_index_lt _ _ _ Hi) as Hlt.
    destruct (firstValue params (drop (S i) name)) as [v|] eqn:Hv; [|done].
    simpl bind. intros [= <-].
    assert (String.length (take i name) = i) as Hlen by (apply length_take; lia).
    split; [unfold len; rewrite length_app; lia|].
    split; [apply HasPrefix_app|].
    intros argValues.
    destruct (Z.eqb_spec (Z.of_nat i) (-1)); [lia|]. cbn [negb].
    rewrite !slice_from_ok by (unfold len; rewrite ?length_app; lia).
    simpl bind. replace (Z.to_nat (Z.of_nat i + 1)) with (S i) by lia.
    rewrite Nat2Z.id. rewrite <- Hlen at 2. by rewrite drop_app.
  - intros [= <-]. split; [unfold len; lia|].
    split; [apply String.eqb_refl | done].
Qed.

End RoundTripFacts.

(** X4.  [Reverse] finds nothing, and does not panic, in a table all of
    whose descriptors were made from a relative path or from an action
    that does not have exactly one dot (an explicit 404 among them),
    whatever the requested action and arguments. *)
Theorem Reverse_skips_unnamed
        (router : Router) (action : string) (argValues : gmap string string) :
  Forall (fun route =>
            exists leaf method path target fixedArgs routesPath line,
              route = Route.set_leaf leaf
                        (NewRoute method path target fixedArgs routesPath line)
              /\ (Strings.HasPrefix path "/" = false
                  \/ Strings.count target "."%char <> 1%nat))
         (Routes router) ->
  Reverse router action argValues = Ok None.
Proof.
  intros Hroutes. unfold Reverse.
  destruct (Strings.Split action ".") as [|c [|m [|x parts]]]; try done.
  apply reverseRoutes_none. eapply Forall_impl; [exact Hroutes|].
  intros route (leaf & method & path & target & fixedArgs & routesPath & line
                & -> & H).
  apply candidate_unnamed. left. cbn [Route.set_leaf Route.ControllerName].
  by apply NewRoute_unnamed.
Qed.

(** The table of [GET /old/path 404] and [GET foo/bar App.Index]. *)
Lemma Reverse_skips_unnamed_witness :
  Reverse (Examples.table ["GET /old/path 404"; "GET foo/bar App.Index"])
          "App.Index" ∅ = Ok None.
Proof.
  apply Reverse_skips_unnamed. repeat constructor.
  - exists (Some (leafAt "/GET/old/path"
                         (NewRoute "GET" "/old/path" "404" EmptyString
                                   "conf/routes" 0))),
      "GET", "/old/path", "404", EmptyString, "conf/routes", 0.
    split; [reflexivity|]. right. vm_compute. discriminate.
  - exists (Some (leafAt "/GETfoo/bar"
                         (NewRoute "GET" "foo/bar" "App.Index" EmptyString
                                   "conf/routes" 1))),
      "GET", "foo/bar", "App.Index", EmptyString, "conf/routes", 1.
    split; [reflexivity|]. left. reflexivity.
Defined.

(** X5.  Forward and back.  When [Route] resolves a request through a
    descriptor with a controller and a method, the resolved names pass
    the tests of [Reverse] for that descriptor, and a definition reversed
    through it from those names carries, under every placeholder name of
    the action, the value that [Route] had captured for it. *)
Theorem Reverse_recovers_captured
        (leaf : pathtree.Leaf Route.t) (expansions : list string)
        (m : RouteMatch.t) :
  resolve leaf expansions = Ok (Some m) ->
  Route.Action (pathtree.Value leaf) <> "404" ->
  Route.ControllerName (pathtree.Value leaf) <> EmptyString ->
  Route.MethodName (pathtree.Value leaf) <> EmptyString ->
  candidate (pathtree.Value leaf)
            (RouteMatch.ControllerName m) (RouteMatch.MethodName m) = Ok true /\
  forall router action argValues definition key,
    reverseThrough router (pathtree.Value leaf) action
                   (RouteMatch.ControllerName m) (RouteMatch.MethodName m)
                   argValues = Ok definition ->
    placeholder (Route.ControllerName (pathtree.Value leaf)) = Some key
    \/ placeholder (Route.MethodName (pathtree.Value leaf)) = Some key ->
    exists v,
      firstValue (RouteMatch.Params m) key = Ok v /\
      ActionDefinition.Args definition !! key = Some v.
Proof.
  intros Hres H404 Hc Hm. unfold resolve in Hres.
  destruct (routeParams _ _ _) as [params|] eqn:Hparams; [|done].
  simpl bind in Hres. apply String.eqb_neq in H404. rewrite H404 in Hres.
  destruct (variablized (Route.ControllerName _) params) as [c|] eqn:Hvc;
    [|done].
  destruct (variablized (Route.MethodName _) params) as [mn|] eqn:Hvm; [|done].
  simpl in Hres. injection Hres as <-.
  cbn [RouteMatch.ControllerName RouteMatch.MethodName RouteMatch.Params].
  destruct (half_round_trip _ _ _ Hvc) as (Hbc & Hhc & Hic).
  destruct (half_round_trip _ _ _ Hvm) as (Hbm & Hhm & Him).
  split.
  - rewrite (candidate_eligible _ _ _ Hbc Hbm). unfold eligible.
    apply String.eqb_neq in Hc, Hm. by rewrite Hc, Hm, Hhc, Hhm.
  - intros router action argValues definition key. unfold reverseThrough.
    rewrite Hic. clear Hic.
    destruct (placeholder (Route.ControllerName _)) as [kc|] eqn:Hkc.
    + destruct (firstValue params kc) as [vc|] eqn:Hfc; [|done]. simpl bind.
      rewrite Him. clear Him.
      destruct (placeholder (Route.MethodName _)) as [km|] eqn:Hkm.
      * destruct (firstValue params km) as [vm|] eqn:Hfm; [|done]. simpl bind.
        destruct (pathtree.Reverse _ _ _) as [[[p u] ms]|]; [|done]. simpl bind.
        destruct (untreePath p) as [u'|]; [|done]. simpl bind.
        intros [= <-] [[= <-] | [= <-]]; cbn [ActionDefinition.Args].
        -- destruct (decide (km = kc)) as [->|Hne].
           ++ exists vm. rewrite lookup_insert_eq. split; [congruence | done].
           ++ exists vc. by rewrite lookup_insert_ne, lookup_insert_eq.
        -- exists vm. by rewrite lookup_insert_eq.
      * simpl bind.
        destruct (pathtree.Reverse _ _ _) as [[[p u] ms]|]; [|done]. simpl bind.
        destruct (untreePath p) as [u'|]; [|done]. simpl bind.
        intros [= <-] [[= <-] | [=]]; cbn [ActionDefinition.Args].
        exists vc. by rewrite lookup_insert_eq.
    + simpl bind. rewrite Him. clear Him.
      destruct (placeholder (Route.MethodName _)) as [km|] eqn:Hkm.
      * destruct (firstValue params km) as [vm|] eqn:Hfm; [|done]. simpl bind.
        destruct (pathtree.Reverse _ _ _) as [[[p u] ms]|]; [|done]. simpl bind.
        destruct (untreePath p) as [u'|]; [|done]. simpl bind.
        intros [= <-] [[=] | [= <-]]; cbn [ActionDefinition.Args].
        exists vm. by rewrite lookup_insert_eq.
      * by intros _ [[=] | [=]].
Qed.

(** The rule [GET /admin/:ctrl Module:ctrl.Index] and the path
    [/admin/users]: the names [Moduleusers] and [Index] reverse through
    the rule, and the argument [ctrl] comes back as [users]. *)
Lemma Reverse_recovers_captured_witness :
  let leaf := leafAt "/GET/admin/:ctrl"
                     (NewRoute "GET" "/admin/:ctrl" "Module:ctrl.Index"
                               EmptyString "conf/routes" 0) in
  candidate (pathtree.Value leaf) "Moduleusers" "Index" = Ok true /\
  forall router action argValues definition key,
    reverseThrough router (pathtree.Value leaf) action "Moduleusers" "Index"
                   argValues = Ok definition ->
    placeholder "Module:ctrl" = Some key \/ placeholder "Index" = Some key ->
    exists v,
      firstValue (<["ctrl" := ["users"]]> ∅) key = Ok v /\
      ActionDefinition.Args definition !! key = Some v.
Proof.
  intros leaf.
  assert (resolve leaf ["users"]
          = Ok (Some (RouteMatch.mk EmptyString "Moduleusers" "Index" []
                                    (<["ctrl" := ["users"]]> ∅)))) as Hres
    by (vm_compute; reflexivity).
  assert (Route.Action (pathtree.Value leaf) <> "404") as H404
    by (vm_compute; discriminate).
  assert (Route.ControllerName (pathtree.Value leaf) <> EmptyString) as Hc
    by (vm_compute; discriminate).
  assert (Route.MethodName (pathtree.Value leaf) <> EmptyString) as Hm
    by (vm_compute; discriminate).
  exact (Reverse_recovers_captured leaf ["users"] _ Hres H404 Hc Hm).
Defined.

(** ** More on the matcher *)

Section MoreMatcherFacts.

Lemma routeParams_union ws expansions params :
  (length expansions <= length ws)%nat ->
  routeParams ws expansions params
  = Ok (list_to_map
          (reverse (zip (pathtree.Name <$> ws) ((fun v => [v]) <$> expansions)))
          ∪ params).
Proof.
  revert ws params. induction expansions as [|v exps IH]; intros ws params Hl.
  - cbn [routeParams]. destruct ws; cbn; by rewrite (left_id_L ∅ (∪)).
  - destruct ws as [|w ws]; [simpl in Hl; lia|]. cbn [routeParams].
    rewrite IH by (simpl in Hl; lia). f_equal.
    rewrite !fmap_cons. cbn [zip zip_with]. rewrite reverse_cons.
    rewrite list_to_map_app. cbn [list_to_map foldr]. cbn.
    rewrite <- (assoc_L (∪)). f_equal.
    by rewrite insert_empty, <- insert_union_singleton_l.
Qed.

Lemma routeParams_captures ws expansions params params' w :
  routeParams ws expansions params = Ok params' ->
  length expansions = length ws ->
  w ∈ ws \/ is_Some (params !! pathtree.Name w) ->
  is_Some (params' !! pathtree.Name w).
Proof.
  revert ws params. induction expansions as [|v exps IH]; intros ws params.
  - cbn [routeParams]. intros [= <-] Hl. destruct ws; [|done].
    intros [H|H]; [by apply elem_of_nil in H | done].
  - destruct ws as [|w0 ws]; [done|]. cbn [routeParams]. intros Hr Hl Hw.
    apply (IH ws _ Hr); [simpl in Hl; lia|].
    destruct Hw as [Hw|Hw].
    + apply elem_of_cons in Hw as [-> | Hw]; [|by left].
      right. by rewrite lookup_insert_eq.
    + right. rewrite lookup_insert. case_decide; [done | exact Hw].
Qed.

Lemma variablized_ok params name :
  singletons params ->
  (forall key, placeholder name = Some key -> is_Some (params !! key)) ->
  exists resolved, variablized name params = Ok resolved.
Proof.
  intros Hs Hk. destruct (variablized name params) as [r|msg] eqn:Hv;
    [by eexists|].
  assert (is_panic (variablized name params)) as Hp by by rewrite Hv.
  apply (variablized_panic _ _ Hs) in Hp as (key & Hkey & Hnone).
  destruct (Hk key Hkey) as [vs Hvs]. congruence.
Qed.

End MoreMatcherFacts.

(** X6.  The parameter map that [Route] builds.  When the tree returns
    no more values than the leaf has placeholders, every value is filed
    as the single value of its placeholder's name, and of two
    placeholders with the same name the later one's value is kept
    ([list_to_map] keeps the first binding of a key, here of the reversed
    list); when it returns more values, building the map panics. *)
Theorem routeParams_last_wins
        (ws : list pathtree.Wildcard) (expansions : list string) :
  ((length expansions <= length ws)%nat ->
   routeParams ws expansions ∅
   = Ok (list_to_map
           (reverse (zip (pathtree.Name <$> ws) ((fun v => [v]) <$> expansions))))) /\
  ((length ws < length expansions)%nat ->
   is_panic (routeParams ws expansions ∅)).
Proof.
  split.
  - intros Hl. rewrite (routeParams_union _ _ _ Hl).
    by rewrite (right_id_L ∅ (∪)).
  - intros Hl. destruct (routeParams ws expansions ∅) as [params|] eqn:Hr;
      [|done].
    apply routeParams_length in Hr. lia.
Qed.

(** The placeholders [id] and [id] with the values [1] and [2], and one
    placeholder with two values. *)
Lemma routeParams_last_wins_witness :
  routeParams [pathtree.mkWildcard "id"; pathtree.mkWildcard "id"] ["1"; "2"] ∅
  = Ok (<["id" := ["2"]]> ∅) /\
  is_panic (routeParams [pathtree.mkWildcard "id"] ["1"; "2"] ∅).
Proof.
  split.
  - rewrite (proj1 (routeParams_last_wins
                      [pathtree.mkWildcard "id"; pathtree.mkWildcard "id"]
                      ["1"; "2"])) by (simpl; lia).
    vm_compute. reflexivity.
  - apply (proj2 (routeParams_last_wins [pathtree.mkWildcard "id"] ["1"; "2"])).
    simpl. lia.
Defined.

(** X7.  [Route] returns a match, and does not panic, whenever the tree
    finds a leaf with one value for each of its placeholders and the
    placeholder names of the action's two halves are among the leaf's
    placeholders. *)
Theorem Route_returns_when_captured
        (router : Router) (req : Request) (leaf : pathtree.Leaf Route.t)
        (expansions : list string) :
  pathtree.Find (Tree router) (treePath (ReqMethod req) (URLPath req))
  = Some (leaf, expansions) ->
  length expansions = length (pathtree.Wildcards leaf) ->
  (forall key,
      placeholder (Route.ControllerName (pathtree.Value leaf)) = Some key
      \/ placeholder (Route.MethodName (pathtree.Value leaf)) = Some key ->
      pathtree.mkWildcard key ∈ pathtree.Wildcards leaf) ->
  exists m, Route router req = Ok (Some m).
Proof.
  intros Hfind Hlen Hkeys. unfold Route. rewrite Hfind.
  destruct (String.eqb_spec (Route.Action (pathtree.Value leaf)) "404")
    as [H404|H404].
  { exists notFound. apply resolve_404; [lia | done]. }
  destruct (routeParams_ok (pathtree.Wildcards leaf) expansions ∅)
    as [params Hparams]; [lia|].
  rewrite (resolve_unfold _ _ _ Hparams) by by apply String.eqb_neq.
  assert (singletons params) as Hs.
  { apply (routeParams_singletons _ _ _ _ Hparams). intros key vs.
    by rewrite lookup_empty. }
  assert (forall key, pathtree.mkWildcard key ∈ pathtree.Wildcards leaf ->
                      is_Some (params !! key)) as Hcap.
  { intros key Hin.
    apply (routeParams_captures _ _ _ _ (pathtree.mkWildcard key) Hparams Hlen).
    by left. }
  destruct (variablized_ok params (Route.ControllerName (pathtree.Value leaf)) Hs)
    as [c ->]; [intros key Hk; apply Hcap, Hkeys; by left|].
  destruct (variablized_ok params (Route.MethodName (pathtree.Value leaf)) Hs)
    as [m ->]; [intros key Hk; apply Hcap, Hkeys; by right|].
  by eexists.
Qed.

(** The rule [GET /:ctrl/:action App:ctrl.:action] on the path
    [/users/list]. *)
Lemma Route_returns_when_captured_witness :
  exists m,
    Route (Examples.table ["GET /:ctrl/:action App:ctrl.:action"])
          (mkRequest "GET" "/users/list") = Ok (Some m).
Proof.
  apply (Route_returns_when_captured
           _ _
           (leafAt "/GET/:ctrl/:action"
                   (NewRoute "GET" "/:ctrl/:action" "App:ctrl.:action"
                             EmptyString "conf/routes" 0))
           ["users"; "list"]).
  - vm_compute. reflexivity.
  - reflexivity.
  - intros key [H|H]; vm_compute in H; injection H as <-.
    + apply elem_of_cons. by left.
    + apply elem_of_cons. right. apply elem_of_cons. by left.
Defined.

(** ** Validation and fixed arguments *)

Section ValidationFacts.
Import Strings StringFacts.

Lemma LastIndex_none s sep : LastIndex s sep = -1 <-> count s sep = O.
Proof.
  unfold LastIndex. rewrite <- last_index_none.
  destruct (last_index_nat s sep); split; try done; lia.
Qed.

Lemma LastIndex_eqb s sep :
  (LastIndex s sep =? -1) = bool_decide (count s sep = O).
Proof.
  destruct (Z.eqb_spec (LastIndex s sep) (-1)) as [H|H];
    rewrite LastIndex_none in H.
  - by rewrite bool_decide_eq_true_2.
  - by rewrite bool_decide_eq_false_2.
Qed.

(** A record without quotes and line ends is cut at its commas. *)
Lemma csv_parse_plain st s :
  st = csv.FieldStart \/ st = csv.Unquoted ->
  count s csv.quote = O -> count s csv.nl = O -> count s csv.cr = O ->
  csv.parse st s = Some (Split s ","%char).
Proof.
  intros Hst. revert st Hst. induction s as [|c s IH]; intros st Hst.
  - by destruct Hst as [-> | ->].
  - cbn [count].
    destruct (Ascii.eqb c csv.quote) eqn:Hcq; [done|].
    destruct (Ascii.eqb c csv.nl) eqn:Hcn; [done|].
    destruct (Ascii.eqb c csv.cr) eqn:Hcr; [done|].
    intros Hq Hn Hr. simpl in Hq, Hn, Hr.
    assert (csv.parse st (String c s)
            = if Ascii.eqb c csv.comma
              then csv.next_field (csv.parse csv.FieldStart s)
              else csv.push c (csv.parse csv.Unquoted s)) as ->.
    { destruct Hst as [-> | ->]; cbn [csv.parse]; unfold csv.ends_line;
        rewrite ?Hcq, Hcn, Hcr; cbn [orb andb]; done. }
    cbn [Split]. unfold csv.comma.
    destruct (Ascii.eqb c ",").
    + by rewrite (IH csv.FieldStart (or_introl eq_refl) Hq Hn Hr).
    + rewrite (IH csv.Unquoted (or_intror eq_refl) Hq Hn Hr). cbn [csv.push].
      pose proof (Split_nonempty s ","%char).
      by destruct (Split s ",").
Qed.

End ValidationFacts.

(** X8.  Validation never consults the handler registry for the
    sentinel target 404, nor for a two-part target one of whose halves
    contains a colon: such a route is valid in every program. *)
Theorem validateRoute_skips (W : World) (route : Route.t) :
  Route.Action route = "404"
  \/ (exists a b,
         Route.Action route = a +:+ "." +:+ b /\
         Strings.count a "."%char = O /\ Strings.count b "."%char = O /\
         (Strings.count a ":"%char <> O \/ Strings.count b ":"%char <> O)) ->
  validateRoute W route = None.
Proof.
  unfold validateRoute. intros [-> | (a & b & -> & Ha & Hb & Hcolon)]; [done|].
  destruct (String.eqb _ "404"); [done|].
  change (a +:+ "." +:+ b) with (a +:+ String "."%char b).
  rewrite (StringFacts.Split_two _ _ _ Ha Hb), !LastIndex_eqb.
  destruct Hcolon as [H|H]; rewrite (bool_decide_eq_false_2 _ H); cbn [negb orb];
    [done | by rewrite orb_true_r].
Qed.

(** The targets [404] and [App.:action], with a registry that knows no
    action at all. *)
Lemma validateRoute_skips_witness :
  let nothing := mkWorld (fun _ => inr "no such file or directory")
                         (fun _ => None)
                         (fun _ _ => Some (otherError "no such action")) in
  validateRoute nothing (NewRoute "GET" "/old" "404" EmptyString "conf/routes" 0)
  = None /\
  validateRoute nothing
                (NewRoute "GET" "/:action" "App.:action" EmptyString "conf/routes" 1)
  = None.
Proof.
  intros nothing. split.
  - apply validateRoute_skips. by left.
  - apply validateRoute_skips. right. exists "App", ":action".
    split; [reflexivity|]. split; [reflexivity|]. split; [reflexivity|].
    right. vm_compute. discriminate.
Defined.

(** X9.  Any other target is valid only if it has exactly two parts and
    the registry accepts them: a target without a dot or with several
    dots is rejected whatever the registry says, and for a target [a.b]
    without colons the verdict is the registry's for [a] and [b]. *)
Theorem validateRoute_literal (W : World) (route : Route.t) :
  Route.Action route <> "404" ->
  (Strings.count (Route.Action route) "."%char <> 1%nat ->
   validateRoute W route
   = Some (otherError
             ("Expected two parts (Controller.Action), but got "
                +:+ decimal (S (Strings.count (Route.Action route) "."%char))
                +:+ ": " +:+ Route.Action route))) /\
  (forall a b,
      Route.Action route = a +:+ "." +:+ b ->
      Strings.count a "."%char = O -> Strings.count b "."%char = O ->
      Strings.count a ":"%char = O -> Strings.count b ":"%char = O ->
      validateRoute W route = SetAction W a b).
Proof.
  intros H404. apply String.eqb_neq in H404. unfold validateRoute.
  rewrite H404. split.
  - intros Hn. pose proof (StringFacts.Split_length (Route.Action route) "."%char)
      as Hl.
    destruct (Strings.Split (Route.Action route) ".") as [|p0 [|p1 [|p2 ps]]]
      eqn:Hs; rewrite <- Hl; try done.
    simpl in Hl. lia.
  - intros a b Haction Ha Hb Hca Hcb. rewrite Haction.
    change (a +:+ "." +:+ b) with (a +:+ String "."%char b).
    rewrite (StringFacts.Split_two _ _ _ Ha Hb), !LastIndex_eqb.
    by rewrite !bool_decide_eq_true_2.
Qed.

(** The targets [A.B.C] and [App.Index], with a registry that knows only
    [App.Index]. *)
Lemma validateRoute_literal_witness :
  let registry := mkWorld (fun _ => inr "no such file or directory")
                          (fun _ => None)
                          (fun c m => if String.eqb c "App" && String.eqb m "Index"
                                      then None
                                      else Some (otherError "no such action")) in
  validateRoute registry (NewRoute "GET" "/x" "A.B.C" EmptyString "conf/routes" 0)
  = Some (otherError "Expected two parts (Controller.Action), but got 3: A.B.C") /\
  validateRoute registry (NewRoute "GET" "/" "App.Index" EmptyString "conf/routes" 1)
  = None.
Proof.
  intros registry. split.
  - apply (proj1 (validateRoute_literal
                    registry
                    (NewRoute "GET" "/x" "A.B.C" EmptyString "conf/routes" 0)
                    ltac:(vm_compute; discriminate))).
    vm_compute. discriminate.
  - exact (proj2 (validateRoute_literal
                    registry
                    (NewRoute "GET" "/" "App.Index" EmptyString "conf/routes" 1)
                    ltac:(vm_compute; discriminate))
                 "App" "Index" eq_refl eq_refl eq_refl eq_refl eq_refl).
Defined.

(** X10.  The fixed arguments of a descriptor.  An argument text without
    quotes and line ends is cut at its commas, and an empty text gives no
    fixed arguments; the path and the target have no part in this. *)
Theorem NewRoute_plain_fixed_args
        (method path action fixedArgs routesPath : string) (line : Z) :
  (fixedArgs = EmptyString ->
   Route.FixedParams (NewRoute method path action fixedArgs routesPath line) = []) /\
  (fixedArgs <> EmptyString ->
   Strings.count fixedArgs csv.quote = O ->
   Strings.count fixedArgs csv.nl = O ->
   Strings.count fixedArgs csv.cr = O ->
   Route.FixedParams (NewRoute method path action fixedArgs routesPath line)
   = Strings.Split fixedArgs ","%char).
Proof.
  assert (Route.FixedParams (NewRoute method path action fixedArgs routesPath line)
          = match csv.Read fixedArgs with
            | csv.Record_ fields => fields
            | _ => []
            end) as ->.
  { unfold NewRoute. destruct (negb _); [done|].
    by destruct (Strings.Split action ".") as [|p0 [|p1 [|p2 ps]]]. }
  split; [by intros ->|].
  intros Hne Hq Hn Hr. destruct fixedArgs as [|c s]; [done|].
  cbn [csv.Read]. unfold csv.ends_line.
  rewrite (csv_parse_plain csv.FieldStart (String c s) (or_introl eq_refl)
                           Hq Hn Hr).
  revert Hn Hr. cbn [Strings.count].
  destruct (Ascii.eqb c csv.nl); [done|].
  by destruct (Ascii.eqb c csv.cr).
Qed.

(** The argument text [bar,baz,] and the empty text. *)
Lemma NewRoute_plain_fixed_args_witness :
  Route.FixedParams (NewRoute "GET" "/x/y" "App.Foo" "bar,baz," "conf/routes" 0)
  = ["bar"; "baz"; EmptyString] /\
  Route.FixedParams (NewRoute "GET" "/x/y" "App.Foo" EmptyString "conf/routes" 0)
  = [].
Proof.
  split.
  - apply (proj2 (NewRoute_plain_fixed_args
                    "GET" "/x/y" "App.Foo" "bar,baz," "conf/routes" 0));
      [discriminate | reflexivity..].
  - by apply (proj1 (NewRoute_plain_fixed_args
                       "GET" "/x/y" "App.Foo" EmptyString "conf/routes" 0)).
Defined.

(** ** The route grammar *)

Section GrammarFacts.
Import Strings StringFacts regexp Language.

Lemma strip_lit_sound l s s' :
  strip_lit l s = Some s' -> exists t, s = t +:+ s' /\ same_fold l t = true.
Proof.
  revert s. induction l as [|a l IH]; intros s; cbn [strip_lit].
  - intros [= <-]. by exists EmptyString.
  - destruct s as [|b s]; [done|].
    destruct (Ascii.eqb _ _) eqn:Hab; [|done].
    intros (t & -> & Ht)%IH. exists (String b t). split; [done|].
    cbn [same_fold]. by rewrite Hab, Ht.
Qed.

Lemma star_sound {A : Type} p s (k : string -> option A) res :
  star p s k = Some res ->
  exists t s', s = t +:+ s' /\ all_bytes p t = true /\ k s' = Some res.
Proof.
  induction s as [|c s IH]; cbn [star].
  - intros H. by exists EmptyString, EmptyString.
  - destruct (p c) eqn:Hc.
    + destruct (star p s k) as [r|] eqn:Hs; cbn [or_else].
      * intros [= <-]. destruct (IH eq_refl) as (t & s' & -> & Ht & Hk).
        exists (String c t), s'. split; [done|]. cbn [all_bytes].
        by rewrite Hc, Ht.
      * intros H. by exists EmptyString, (String c s).
    + intros H. by exists EmptyString, (String c s).
Qed.

Lemma consumed_app t s' : consumed (t +:+ s') s' = t.
Proof.
  unfold consumed. rewrite length_app.
  replace (String.length t + String.length s' - String.length s')%nat
    with (String.length t) by lia.
  apply take_app.
Qed.

(** The matcher is sound for the language: a result comes from a split
    of the input into a text of the language and a rest that the
    continuation accepts. *)
Lemma run_sound r :
  forall s caps k res,
    run r s caps k = Some res ->
    exists t s' caps',
      s = t +:+ s' /\ lang r t caps caps' /\ k s' caps' = Some res.
Proof.
  induction r as [l|p|p|p|r1 IH1|r1 IH1 r2 IH2|r1 IH1 r2 IH2|n r1 IH1];
    intros s caps k res; cbn [run lang].
  - destruct (strip_lit l s) as [s'|] eqn:Hl; [|done].
    apply strip_lit_sound in Hl as (t & -> & Ht). intros Hk.
    by exists t, s', caps.
  - destruct s as [|c s]; [done|]. destruct (p c) eqn:Hc; [|done].
    intros Hk. exists (String c EmptyString), s, caps.
    split; [done|]. split; [|done]. split; [by exists c | done].
  - intros (t & s' & -> & Ht & Hk)%star_sound. by exists t, s', caps.
  - destruct s as [|c s]; [done|]. destruct (p c) eqn:Hc; [|done].
    intros (t & s' & -> & Ht & Hk)%star_sound.
    exists (String c t), s', caps. split; [done|]. split; [|done].
    split; [done|]. cbn [all_bytes]. by rewrite Hc, Ht.
  - destruct (run r1 s caps k) as [r|] eqn:H1; cbn [or_else].
    + intros [= <-]. destruct (IH1 _ _ _ _ H1) as (t & s' & caps' & -> & Hl & Hk).
      exists t, s', caps'. auto.
    + intros Hk. exists EmptyString, s, caps. auto.
  - destruct (run r1 s caps k) as [r|] eqn:H1; cbn [or_else].
    + intros [= <-]. destruct (IH1 _ _ _ _ H1) as (t & s' & caps' & -> & Hl & Hk).
      exists t, s', caps'. auto.
    + intros H2. destruct (IH2 _ _ _ _ H2) as (t & s' & caps' & -> & Hl & Hk).
      exists t, s', caps'. auto.
  - intros H. destruct (IH1 _ _ _ _ H) as (t1 & sm & capsm & -> & Hl1 & H2).
    destruct (IH2 _ _ _ _ H2) as (t2 & s' & caps' & -> & Hl2 & Hk).
    exists (t1 +:+ t2), s', caps'. split; [by rewrite app_assoc|].
    split; [|done]. by exists t1, t2, capsm.
  - intros H. destruct (IH1 _ _ _ _ H) as (t & s' & capsm & -> & Hl & Hk).
    rewrite consumed_app in Hk. exists t, s', ((n, t) :: capsm).
    split; [done|]. split; [|done]. by exists capsm.
Qed.

Lemma match_whole_sound r s caps :
  match_whole r s = Some caps -> lang r s [] caps.
Proof.
  unfold match_whole. intros (t & s' & caps' & -> & Hl & Hk)%run_sound.
  destruct s'; [|done]. injection Hk as <-. by rewrite app_empty_r.
Qed.

Lemma count_app s t c : count (s +:+ t) c = (count s c + count t c)%nat.
Proof.
  induction s as [|a s IH]; [done|]. rewrite app_cons. cbn [count].
  rewrite IH. lia.
Qed.


Lemma same_fold_upper l t : same_fold l t = true -> ToUpper t = ToUpper l.
Proof.
  revert t. induction l as [|a l IH]; intros [|b t]; cbn [same_fold]; try done.
  intros [Hab Ht]%andb_true_iff. cbn [ToUpper].
  apply Ascii.eqb_eq in Hab. by rewrite Hab, (IH t).
Qed.

(** The parts of a line that the route pattern matches. *)
Lemma routePattern_parts line caps :
  lang Grammar.routePattern line [] caps ->
  exists method constraint path action fixedArgs before after keyword,
    line = method +:+ before +:+ path +:+ after /\
    submatch caps 1 = method /\ submatch caps 4 = path /\
    submatch caps 5 = action /\ submatch caps 6 = fixedArgs /\
    submatch caps 2 = constraint /\
    keyword ∈ methodKeywords /\ same_fold keyword method = true /\
    (exists x y, path = x +:+ "/" +:+ y
                 /\ all_bytes (fun c => negb (Grammar.blank c)) y = true) /\
    action <> EmptyString /\
    all_bytes (fun c => negb (Grammar.blank c || Grammar.is_byte "("%char c))
              action = true /\
    all_bytes (fun c => negb (Grammar.is_byte ")"%char c)) fixedArgs = true.
Proof.
  unfold Grammar.routePattern. cbn [Grammar.cat Grammar.alt lang].
  intros (m & t1 & caps1 & -> & (c0 & Hm & ->) & H).
  assert (c0 = [] /\
          exists keyword, keyword ∈ methodKeywords /\ same_fold keyword m = true)
    as [-> (keyword & Hkw & Hfold)].
  { unfold methodKeywords.
    repeat (destruct Hm as [[Hm ->] | Hm];
            [split; [done|]; eexists; split; [|exact Hm]; by repeat constructor|]).
    destruct Hm as [Hm ->]. split; [done|]. eexists. split; [|exact Hm].
    by repeat constructor. }
  destruct H as (o1 & t2 & caps2 & -> & Ho1 & H).
  assert (caps2 = [(1%nat, m)]) as ->
      by (by destruct Ho1 as [[_ ->] | [_ ->]]).
  destruct H as (c & t3 & caps3 & -> & (c3 & [Hc ->] & ->) & H).
  destruct H as (o3 & t4 & caps4 & -> & Ho3 & H).
  assert (submatch caps4 1 = m /\ submatch caps4 2 = c) as [Hs1 Hs2].
  { destruct Ho3 as [(c4 & [_ ->] & ->) | [_ ->]]; cbn [submatch Nat.eqb]; done. }
  destruct H as (b1 & t5 & caps5 & -> & (Hb1 & Hb1' & ->) & H).
  destruct H as (p & t6 & caps6 & -> & (c6 & Hp & ->) & H).
  destruct Hp as (x & t7 & cm & -> & [Hx ->]
                  & (sl & y & cm2 & -> & [(csl & -> & Hcsl) ->] & [Hy ->])).
  destruct H as (b2 & t8 & caps8 & -> & (Hb2 & Hb2' & ->) & H).
  destruct H as (a & t9 & caps9 & -> & (c9 & (Ha & Ha' & ->) & ->) & H).
  destruct H as (o4 & t10 & caps10 & -> & Ho4 & H).
  assert (caps10 = (5%nat, a)
                     :: (4%nat, x +:+ String csl EmptyString +:+ y) :: caps4)
    as -> by (by destruct Ho4 as [[_ ->] | [_ ->]]).
  destruct H as (f & t11 & caps11 & -> & (c11 & [Hf ->] & ->) & H).
  destruct H as (o5 & b3 & caps12 & -> & Ho5 & [Hb3 ->]).
  assert (caps12 = (6%nat, f) :: (5%nat, a)
                     :: (4%nat, x +:+ String csl EmptyString +:+ y) :: caps4)
    as -> by (by destruct Ho5 as [[_ ->] | [_ ->]]).
  assert (csl = "/"%char) as ->.
  { unfold Grammar.is_byte in Hcsl. by apply Ascii.eqb_eq in Hcsl. }
  exists m, c, (x +:+ "/" +:+ y), a, f,
    (o1 +:+ c +:+ o3 +:+ b1), (b2 +:+ a +:+ o4 +:+ f +:+ o5 +:+ b3), keyword.
  split; [by rewrite !app_assoc|].
  cbn [submatch Nat.eqb].
  repeat split; try done.
  by exists x, y.
Qed.

End GrammarFacts.



(** ** Reading the routes file *)

Section ParseFacts.
Import Strings StringFacts regexp Language.

Variable W : World.

Lemma parseRouteLine_fields line method path action fixedArgs :
  parseRouteLine line = Some (method, path, action, fixedArgs) ->
  ToUpper method ∈ methodKeywords /\
  count path "/"%char <> O /\ action <> EmptyString.
Proof.
  unfold parseRouteLine.
  destruct (match_whole Grammar.routePattern line) as [caps|] eqn:Hm; [|done].
  apply match_whole_sound, routePattern_parts in Hm
    as (m & c & p & a & f & before & after & keyword & -> & H1 & H4 & H5 & H6
        & _ & Hkw & Hfold & (x & y & -> & Hy) & Ha & _).
  intros [= <- <- <- <-]. rewrite H1, H4, H5.
  split; [|split; [|done]].
  - rewrite (same_fold_upper _ _ Hfold). unfold methodKeywords in *.
    repeat (apply elem_of_cons in Hkw as [-> | Hkw];
            [match goal with
             | |- ToUpper ?kw ∈ _ =>
                 let upper := eval vm_compute in (ToUpper kw) in
                 change (ToUpper kw) with upper
             end; by repeat constructor|]).
    by apply elem_of_nil in Hkw.
  - change (x +:+ "/" +:+ y) with (x +:+ String "/"%char y).
    rewrite count_app. cbn [count]. rewrite Ascii.eqb_refl. lia.
Qed.


Lemma NewRoute_grammatical line method path action fixedArgs routesPath n :
  parseRouteLine line = Some (method, path, action, fixedArgs) ->
  grammatical (NewRoute method path action fixedArgs routesPath n).
Proof.
  intros (Hm & Hp & Ha)%parseRouteLine_fields.
  destruct (NewRoute_fields method path action fixedArgs routesPath n)
    as (HM & HP & HA & HT & HL).
  unfold grammatical. by rewrite HM, HP, HA, HT, HL.
Qed.

(** The loop of [parseRoutes] keeps an invariant of the descriptors that
    the module files keep too. *)
Lemma parseLines_invariant (P : Route.t -> Prop) getModuleRoutes routesPath
      content validate lines n routes routes' err :
  (forall line method path action fixedArgs m,
      parseRouteLine line = Some (method, path, action, fixedArgs) ->
      P (NewRoute method path action fixedArgs routesPath m)) ->
  (forall name v rs e, getModuleRoutes name v = Some (rs, e) -> Forall P rs) ->
  Forall P routes ->
  parseLines W getModuleRoutes routesPath content validate lines n routes
  = Some (routes', err) ->
  Forall P routes'.
Proof.
  intros Hnew Hmod. revert n routes.
  induction lines as [|line lines IH]; intros n routes Hroutes;
    cbn [parseLines]; [by intros [= <- _]|].
  destruct (_ || _); [by apply IH|].
  destruct (HasPrefix _ _).
  - destruct (getModuleRoutes _ _) as [[moduleRoutes [e|]]|] eqn:Hg; [| |done].
    + by intros [= <- _].
    + apply IH. apply Forall_app. split; [done|]. by eapply Hmod.
  - destruct (parseRouteLine _) as [[[[method path'] action] fixedArgs]|] eqn:Hp;
      [|by apply IH].
    assert (Forall P (routes ++ [NewRoute method path' action fixedArgs
                                          routesPath n])) as Hroutes'.
    { apply Forall_app. split; [done|]. constructor; [|done]. by eapply Hnew. }
    destruct validate; [|by apply IH].
    destruct (validateRoute _ _); [by intros [= <- _] | by apply IH].
Qed.

Lemma parseRoutesFile_invariant (P : Route.t -> Prop) fuel routesPath validate
      routes err :
  (forall line method path action fixedArgs file m,
      parseRouteLine line = Some (method, path, action, fixedArgs) ->
      P (NewRoute method path action fixedArgs file m)) ->
  parseRoutesFile W fuel routesPath validate = Some (routes, err) ->
  Forall P routes.
Proof.
  intros Hnew. revert routesPath validate routes err.
  induction fuel as [|fuel IH]; intros routesPath validate routes err; [done|].
  cbn [parseRoutesFile].
  destruct (ReadFile W routesPath) as [content|description];
    [|by intros [= <- _]].
  unfold parseRoutesWith. apply parseLines_invariant; [by eauto | | done].
  intros name v rs e. unfold getModuleRoutesWith.
  destruct (ModuleByName W name); [apply IH | by intros [= <- _]].
Qed.


End ParseFacts.

(** X12.  Every descriptor that [parseRoutesFile] returns, from the file
    itself or from the files of the modules it includes, keeps the shape
    that the route grammar gives it: its method is one of the nine
    keywords in upper case, its path has a slash, it has a target, its
    tree path is the one of its method and path, and its leaf is not
    set. *)
Theorem parseRoutesFile_grammatical
        (W : World) (fuel : nat) (routesPath : string) (validate : bool)
        (routes : list Route.t) (err : option Error.t) :
  parseRoutesFile W fuel routesPath validate = Some (routes, err) ->
  Forall grammatical routes.
Proof.
  apply parseRoutesFile_invariant.
  intros line method path action fixedArgs file m. apply NewRoute_grammatical.
Qed.

(** The file with the lines [get /a App.A] and [* /b App.B]. *)
Lemma parseRoutesFile_grammatical_witness :
  Forall grammatical
         [NewRoute "get" "/a" "App.A" EmptyString "conf/routes" 0;
          NewRoute "*" "/b" "App.B" EmptyString "conf/routes" 1].
Proof.
  apply (parseRoutesFile_grammatical
           (Examples.world ["get /a App.A"; "* /b App.B"]) 1 "conf/routes"
           true _ None).
  vm_compute. reflexivity.
Defined.



(** ** Errors of the routes file *)

Section ErrorFacts.
Import Strings StringFacts regexp Language.

Variable W : World.





End ErrorFacts.



(** ** Requests against a registered table *)

Section ServingFacts.
Import Strings StringFacts pathtree.

(** A registered leaf is the one of a descriptor of the table, under its
    tree path or, for a GET, under the HEAD key of its path. *)
Lemma registrations_in routes l :
  l ∈ registrations routes ->
  exists route,
    route ∈ routes /\
    (l = leafAt (Route.TreePath route) route \/
     Route.Method route = "GET" /\
     l = leafAt (treePath "HEAD" (Route.Path route)) route).
Proof.
  unfold registrations. rewrite list_elem_of_bind.
  intros (route & Hl & Hin). exists route. split; [done|].
  apply elem_of_cons in Hl as [-> | Hl]; [by left|].
  destruct (String.eqb_spec (Route.Method route) "GET") as [Hget|];
    [|by apply elem_of_nil in Hl].
  apply list_elem_of_singleton in Hl as ->. by right.
Qed.

Lemma updateTree_found W router router' key leaf expansions :
  updateTree W router = (router', None) ->
  Find (Tree router') key = Some (leaf, expansions) ->
  leaf ∈ registrations (Routes router) /\
  matchElems (elements leaf) (splitPath key) = Some expansions.
Proof.
  unfold updateTree.
  destruct (registerRoutes W New (Routes router))
    as [[routes' tree'] err'] eqn:Hr.
  intros [= <- ->]. cbn [Tree].
  apply registerRoutes_leaves in Hr as [_ Hleaves]. simpl in Hleaves.
  unfold Find. destruct (rooted key); [|done].
  rewrite Hleaves. apply find_some.
Qed.

Lemma keyword_segment method :
  method ∈ methodKeywords -> method <> "*" ->
  methodSegment method = method /\
  is_star method = false /\ is_colon method = false /\
  method <> ":METHOD".
Proof.
  unfold methodKeywords. intros Hin Hstar.
  repeat (apply elem_of_cons in Hin as [-> | Hin]; [done|]).
  by apply elem_of_nil in Hin.
Qed.

Lemma methodSegment_cases method :
  method = "*" /\ methodSegment method = ":METHOD" \/
  method <> "*" /\ methodSegment method = method.
Proof.
  unfold methodSegment.
  destruct (String.eqb_spec method "*"); [by left | by right].
Qed.

End ServingFacts.

(** X15.  After [updateTree] has registered a table without an error, a
    match that [Route] returns is made from a descriptor of that table:
    it is the explicit 404 of a descriptor whose target is 404, or it
    has an empty action, the descriptor's fixed parameters, and for
    controller and method the descriptor's names with the captured
    parameters put in. *)
Theorem Route_match_from_table
        (W : World) (router router' : Router) (req : Request)
        (m : RouteMatch.t) :
  updateTree W router = (router', None) ->
  Route router' req = Ok (Some m) ->
  exists route,
    route ∈ Routes router /\
    (Route.Action route = "404" /\ m = notFound \/
     Route.Action route <> "404" /\
     RouteMatch.Action m = EmptyString /\
     RouteMatch.FixedParams m = Route.FixedParams route /\
     variablized (Route.ControllerName route) (RouteMatch.Params m)
     = Ok (RouteMatch.ControllerName m) /\
     variablized (Route.MethodName route) (RouteMatch.Params m)
     = Ok (RouteMatch.MethodName m)).
Proof.
  intros Hupdate. unfold Route.
  destruct (pathtree.Find _ _) as [[leaf expansions]|] eqn:Hfind; [|done].
  intros H.
  destruct (updateTree_found _ _ _ _ _ _ Hupdate Hfind) as [Hin _].
  assert (exists route, route ∈ Routes router /\ pathtree.Value leaf = route)
    as (route & Hroute & Hvalue).
  { apply registrations_in in Hin as (route & Hroute & [-> | [_ ->]]);
      by exists route. }
  exists route. split; [done|]. revert H. unfold resolve. rewrite Hvalue.
  destruct (routeParams _ _ _) as [params|]; [|done]. simpl bind.
  destruct (String.eqb_spec (Route.Action route) "404") as [Ha | Ha].
  - intros [= <-]. by left.
  - destruct (variablized (Route.ControllerName route) params)
      as [controllerName|] eqn:Hc; [|done].
    destruct (variablized (Route.MethodName route) params)
      as [methodName|] eqn:Hmn; [|done].
    simpl bind. intros [= <-]. right. split; [done|]. by cbn.
Qed.

(** The table of [GET /item/:id Shop:id.Show(a,b)] and the request
    [GET /item/5]. *)
Lemma Route_match_from_table_witness :
  let route := NewRoute "GET" "/item/:id" "Shop:id.Show" "a,b"
                        "conf/routes" 0 in
  let params : gmap string (list string) := {[ "id" := ["5"] ]} in
  let m := RouteMatch.mk EmptyString "Shop5" "Show" ["a"; "b"] params in
  exists route',
    route' ∈ [route] /\
    (Route.Action route' = "404" /\ m = notFound \/
     Route.Action route' <> "404" /\
     RouteMatch.Action m = EmptyString /\
     RouteMatch.FixedParams m = Route.FixedParams route' /\
     variablized (Route.ControllerName route') (RouteMatch.Params m)
     = Ok (RouteMatch.ControllerName m) /\
     variablized (Route.MethodName route') (RouteMatch.Params m)
     = Ok (RouteMatch.MethodName m)).
Proof.
  intros route params m.
  apply (Route_match_from_table
           (Examples.world ["GET /item/:id Shop:id.Show(a,b)"])
           (mkRouter [route] pathtree.New "conf/routes")
           (Examples.table ["GET /item/:id Shop:id.Show(a,b)"])
           (mkRequest "GET" "/item/5") m).
  - vm_compute. reflexivity.
  - vm_compute. reflexivity.
Defined.

(** X16.  In a table of descriptors with a method keyword and an
    absolute path that [updateTree] has registered without an error, the
    leaf found for a request, whose method has no slash and whose path
    is absolute, holds a descriptor of the table that has the request's
    method, or the method [*], or the method GET when the request's is
    HEAD. *)
Theorem Find_respects_method
        (W : World) (router router' : Router) (req : Request)
        (leaf : pathtree.Leaf Route.t) (expansions : list string) :
  updateTree W router = (router', None) ->
  Forall wellFormed (Routes router) ->
  Forall (fun route => Route.Method route ∈ methodKeywords) (Routes router) ->
  Strings.count (ReqMethod req) "/"%char = O ->
  Strings.HasPrefix (URLPath req) "/" = true ->
  pathtree.Find (Tree router') (treePath (ReqMethod req) (URLPath req))
  = Some (leaf, expansions) ->
  pathtree.Value leaf ∈ Routes router /\
  (Route.Method (pathtree.Value leaf) = ReqMethod req \/
   Route.Method (pathtree.Value leaf) = "*" \/
   Route.Method (pathtree.Value leaf) = "GET" /\ ReqMethod req = "HEAD").
Proof.
  intros Hupdate Hwf Hkw Hm Hp Hfind.
  destruct (updateTree_found _ _ _ _ _ _ Hupdate Hfind) as [Hin Hmatch].
  rewrite (splitPath_treePath _ _ Hm Hp) in Hmatch.
  apply registrations_in in Hin as (route & Hroute & Hleaf).
  rewrite Forall_forall in Hwf, Hkw.
  destruct (Hwf _ Hroute) as (Htp & Hrp & Hrm). specialize (Hkw _ Hroute).
  assert (exists method,
             method ∈ methodKeywords /\
             pathtree.Value leaf = route /\
             pathtree.elements leaf
             = pathtree.pattern (methodSegment method
                                   :: pathtree.splitPath (Route.Path route)) /\
             (method = Route.Method route \/
              method = "HEAD" /\ Route.Method route = "GET"))
    as (method & Hmk & Hvalue & Hels & Hcases).
  { destruct Hleaf as [-> | [Hget ->]].
    - exists (Route.Method route). rewrite Htp.
      rewrite (leafAt_treePath _ _ _ Hrm Hrp). by auto.
    - exists "HEAD". rewrite (leafAt_treePath "HEAD" _ _ eq_refl Hrp).
      split; [unfold methodKeywords; by repeat constructor|]. by auto. }
  rewrite Hvalue. split; [done|]. rewrite Hels in Hmatch.
  destruct (String.eqb_spec method "*") as [Hstar | Hstar].
  { destruct Hcases as [<- | [-> _]]; [by auto | done]. }
  destruct (keyword_segment _ Hmk Hstar) as (Hseg & Hs & Hc & Hne).
  rewrite Hseg, (pattern_cons _ _ Hs) in Hmatch.
  rewrite (matchElems_literal _ _ _ _ Hs Hc) in Hmatch.
  destruct (String.eqb_spec method (methodSegment (ReqMethod req)))
    as [Heq | _]; [|done].
  destruct (methodSegment_cases (ReqMethod req)) as [[_ Hseg'] | [_ Hseg']];
    rewrite Hseg' in Heq; [done|].
  destruct Hcases as [<- | [-> ->]]; by auto.
Qed.

(** The table of [GET /item/:id App.Show] and [* /any App.Any]: the HEAD
    request for [/item/5] finds the alias of the GET rule. *)
Lemma Find_respects_method_witness :
  let show := NewRoute "GET" "/item/:id" "App.Show" EmptyString
                       "conf/routes" 0 in
  let any := NewRoute "*" "/any" "App.Any" EmptyString "conf/routes" 1 in
  let leaf := leafAt "/HEAD/item/:id" show in
  pathtree.Value leaf ∈ [show; any] /\
  (Route.Method (pathtree.Value leaf) = "HEAD" \/
   Route.Method (pathtree.Value leaf) = "*" \/
   Route.Method (pathtree.Value leaf) = "GET" /\ "HEAD" = "HEAD").
Proof.
  intros show any leaf.
  apply (Find_respects_method
           (Examples.world ["GET /item/:id App.Show"; "* /any App.Any"])
           (mkRouter [show; any] pathtree.New "conf/routes")
           (Examples.table ["GET /item/:id App.Show"; "* /any App.Any"])
           (mkRequest "HEAD" "/item/5") leaf ["5"]).
  - vm_compute. reflexivity.
  - repeat constructor.
  - unfold methodKeywords. repeat constructor.
  - reflexivity.
  - reflexivity.
  - vm_compute. reflexivity.
Defined.

(** ** The table after a refresh, and the filter *)

Section RefreshFacts.

Lemma set_leaf_None route :
  Route.leaf route = None -> Route.set_leaf None route = route.
Proof. destruct route. simpl. by intros ->. Qed.

Lemma fixedByName_cons args i value fixedParams fixed :
  fixedByName args i (value :: fixedParams) fixed
  = match args !! i with
    | Some name =>
        fixedByName args (S i) fixedParams
                    (Some (<[name := [value]]> (default ∅ fixed)))
    | None => Some (default ∅ fixed)
    end.
Proof. by destruct fixed. Qed.

(** The loop of [RouterFilter] binds the fixed parameters to the
    argument names at their positions. *)
Lemma fixedByName_from args i value fixedParams fixed :
  fixedByName args i (value :: fixedParams) fixed
  = Some (list_to_map
            (reverse (zip (drop i args)
                          ((fun v => [v]) <$> value :: fixedParams)))
            ∪ default ∅ fixed).
Proof.
  revert i value fixed.
  induction fixedParams as [|value' fixedParams IH]; intros i value fixed.
  - rewrite fixedByName_cons.
    destruct (args !! i) as [name|] eqn:Hi.
    + rewrite (drop_S _ _ _ Hi). cbn [fmap list_fmap zip zip_with].
      rewrite zip_with_nil_r.
      change (reverse [(name, [value])]) with [(name, [value])].
      cbn [list_to_map foldr].
      rewrite <- insert_union_l, (left_id_L ∅ (∪)). done.
    + rewrite (drop_ge args i) by by apply lookup_ge_None.
      cbn [fmap list_fmap zip zip_with].
      change (reverse []) with (@nil (string * list string)).
      cbn [list_to_map foldr].
      rewrite (left_id_L ∅ (∪)). done.
  - rewrite fixedByName_cons.
    destruct (args !! i) as [name|] eqn:Hi.
    + rewrite IH. rewrite (drop_S _ _ _ Hi). f_equal.
      cbn [fmap list_fmap zip zip_with default].
      rewrite reverse_cons, list_to_map_app. cbn [list_to_map foldr].
      rewrite <- (assoc_L (∪)).
      f_equal. rewrite <- insert_union_l, (left_id_L ∅ (∪)). done.
    + rewrite (drop_ge args i) by by apply lookup_ge_None.
      cbn [fmap list_fmap zip zip_with].
      change (reverse []) with (@nil (string * list string)).
      cbn [list_to_map foldr].
      rewrite (left_id_L ∅ (∪)). done.
Qed.

End RefreshFacts.

(** X17.  After a [Refresh] without an error, the router keeps its path,
    its table is what [parseRoutesFile] reads from that path, in that
    order, with the leaf of every descriptor set, and every descriptor
    keeps the shape of the route grammar. *)
Theorem Refresh_table
        (W : World) (fuel : nat) (router router' : Router) :
  Refresh W fuel router = Some (router', None) ->
  path router' = path router /\
  parseRoutesFile W fuel (path router) true
  = Some (Route.set_leaf None <$> Routes router', None) /\
  Forall (fun route => Route.leaf route <> None /\
                       grammatical (Route.set_leaf None route))
         (Routes router').
Proof.
  unfold Refresh.
  destruct (parseRoutesFile W fuel (path router) true)
    as [[routes [e|]]|] eqn:Hparse; [done| |done].
  unfold updateTree. cbn [Routes path].
  destruct (registerRoutes W pathtree.New routes)
    as [[routes' tree'] err'] eqn:Hr.
  intros [= <- ->]. cbn [Routes path].
  pose proof (registerRoutes_leaf_set _ _ _ _ _ Hr) as Hset.
  apply registerRoutes_leaves in Hr as [Hsame _].
  assert (Forall grammatical routes) as Hg.
  { eapply parseRoutesFile_invariant; [|exact Hparse].
    intros line method path' action fixedArgs file n.
    apply NewRoute_grammatical. }
  assert (Route.set_leaf None <$> routes = routes) as Hroutes.
  { clear -Hg. induction Hg as [|route routes Hroute _ IH]; [done|].
    rewrite fmap_cons, IH. f_equal. apply set_leaf_None, Hroute. }
  rewrite Hroutes in Hsame. rewrite Hsame.
  split; [done|]. split; [done|].
  apply Forall_forall. intros route Hin. split.
  - rewrite Forall_forall in Hset. by apply Hset.
  - rewrite Forall_forall in Hg. apply Hg. rewrite <- Hsame.
    by apply list_elem_of_fmap_2.
Qed.

(** The first refresh of the file with the lines [get /a App.A] and
    [* /b App.B]. *)
Lemma Refresh_table_witness :
  let router' := Examples.table ["get /a App.A"; "* /b App.B"] in
  path router' = "conf/routes" /\
  parseRoutesFile (Examples.world ["get /a App.A"; "* /b App.B"]) 1
                  "conf/routes" true
  = Some (Route.set_leaf None <$> Routes router', None) /\
  Forall (fun route => Route.leaf route <> None /\
                       grammatical (Route.set_leaf None route))
         (Routes router').
Proof.
  intros router'.
  apply (Refresh_table (Examples.world ["get /a App.A"; "* /b App.B"]) 1
                       (NewRouter "conf/routes") router').
  vm_compute. reflexivity.
Defined.

(** X18.  When the request resolves to a match that is not the explicit
    404 and [SetAction] accepts its names, [RouterFilter] runs the rest
    of the chain on the controller with the match's parameters as route
    parameters and with each fixed parameter bound, as a one-element
    list, to the name of the method argument at its position.  Fixed
    parameters beyond the last argument are dropped, bindings that were
    there before stay unless a fixed parameter overwrites them, and
    without fixed parameters the map is left as it was. *)
Theorem RouterFilter_binds_fixed
        (SetActionOn : Controller -> string -> string
                       -> Controller * option string)
        (router : Router) (c c1 : Controller) (fc : list Filter)
        (route : RouteMatch.t) :
  Route router (CRequest c) = Ok (Some route) ->
  RouteMatch.Action route <> "404" ->
  SetActionOn c (RouteMatch.ControllerName route) (RouteMatch.MethodName route)
  = (c1, None) ->
  RouterFilter SetActionOn router c fc
  = runChain fc
      (set_Params
         (RouteMatch.Params route)
         (match RouteMatch.FixedParams route with
          | [] => ParamsFixed c1
          | _ :: _ =>
              Some (list_to_map
                      (reverse (zip (MethodArgs c1)
                                    ((fun v => [v])
                                       <$> RouteMatch.FixedParams route)))
                      ∪ default ∅ (ParamsFixed c1))
          end)
         c1).
Proof.
  intros Hroute H404 Hset. unfold RouterFilter. rewrite Hroute. simpl bind.
  destruct (String.eqb_spec (RouteMatch.Action route) "404"); [done|].
  rewrite Hset. f_equal. f_equal.
  destruct (RouteMatch.FixedParams route) as [|value fixedParams]; [done|].
  by rewrite fixedByName_from.
Qed.

(** The rule [GET /x/y App.Foo(bar,baz,qux)] and a method of two
    arguments: the third fixed parameter is dropped. *)
Lemma RouterFilter_binds_fixed_witness :
  let router := Examples.table ["GET /x/y App.Foo(bar,baz,qux)"] in
  let c := mkController (mkRequest "GET" "/x/y") None ∅ None [] in
  let c1 := mkController (mkRequest "GET" "/x/y") None ∅ None
                         ["first"; "second"] in
  let SetActionOn := fun (_ : Controller) (_ _ : string) =>
                       (c1, @None string) in
  let fc : list Filter := [fun _ c => Ok c] in
  let route := RouteMatch.mk EmptyString "App" "Foo" ["bar"; "baz"; "qux"] ∅ in
  RouterFilter SetActionOn router c fc
  = runChain fc
      (set_Params
         (RouteMatch.Params route)
         (Some (list_to_map
                  (reverse (zip (MethodArgs c1)
                                ((fun v => [v])
                                   <$> RouteMatch.FixedParams route)))
                  ∪ default ∅ (ParamsFixed c1)))
         c1).
Proof.
  intros router c c1 SetActionOn fc route.
  apply (RouterFilter_binds_fixed SetActionOn router c c1 fc route).
  - vm_compute. reflexivity.
  - discriminate.
  - reflexivity.
Defined.

(** ** Reading with and without validation *)

Section ValidateFacts.
Import Strings StringFacts.

Variable W : World.

Lemma parseLines_unvalidated_error getModuleRoutes routesPath content
      lines n routes routes' err :
  (forall name rs e,
      getModuleRoutes name false = Some (rs, Some e) ->
      exists file description,
        ReadFile W file = inr description /\
        e = Error.mk "Failed to load routes file" description EmptyString 0 []) ->
  parseLines W getModuleRoutes routesPath content false lines n routes
  = Some (routes', Some err) ->
  routes' = [] /\
  exists file description,
    ReadFile W file = inr description /\
    err = Error.mk "Failed to load routes file" description EmptyString 0 [].
Proof.
  intros Hmod. revert n routes.
  induction lines as [|line lines IH]; intros n routes; cbn [parseLines];
    [done|].
  destruct (_ || _); [by apply IH|].
  destruct (HasPrefix _ _).
  - destruct (getModuleRoutes _ _) as [[moduleRoutes [e|]]|] eqn:Hg;
      [| by apply IH | done].
    intros [= <- <-]. split; [done|]. by eapply Hmod.
  - destruct (parseRouteLine _) as [[[[method path'] action] fixedArgs]|];
      by apply IH.
Qed.

Lemma parseLines_validation_filters getModuleRoutes routesPath content
      lines n routes routes' :
  (forall name rs, getModuleRoutes name true = Some (rs, None) ->
                   getModuleRoutes name false = Some (rs, None)) ->
  parseLines W getModuleRoutes routesPath content true lines n routes
  = Some (routes', None) ->
  parseLines W getModuleRoutes routesPath content false lines n routes
  = Some (routes', None).
Proof.
  intros Hmod. revert n routes.
  induction lines as [|line lines IH]; intros n routes; cbn [parseLines];
    [done|].
  destruct (_ || _); [by apply IH|].
  destruct (HasPrefix _ _).
  - destruct (getModuleRoutes _ true) as [[moduleRoutes [e|]]|] eqn:Hg;
      [done| |done].
    rewrite (Hmod _ _ Hg). by apply IH.
  - destruct (parseRouteLine _) as [[[[method path'] action] fixedArgs]|];
      [|by apply IH].
    destruct (validateRoute W _); [done | by apply IH].
Qed.

End ValidateFacts.

(** X19.  Validation only refuses: the routes that [parseRoutesFile]
    returns without an error when it validates are the routes that it
    returns, without an error, when it does not validate. *)
Theorem validation_only_refuses
        (W : World) (fuel : nat) (routesPath : string)
        (routes : list Route.t) :
  parseRoutesFile W fuel routesPath true = Some (routes, None) ->
  parseRoutesFile W fuel routesPath false = Some (routes, None).
Proof.
  revert routesPath routes.
  induction fuel as [|fuel IH]; intros routesPath routes; [done|].
  cbn [parseRoutesFile].
  destruct (ReadFile W routesPath) as [content|description]; [|done].
  unfold parseRoutesWith. apply parseLines_validation_filters.
  intros name rs. unfold getModuleRoutesWith.
  destruct (ModuleByName W name); [apply IH | done].
Qed.

(** The file with the lines [GET /a App.A] and [* /b App.B]. *)
Lemma validation_only_refuses_witness :
  parseRoutesFile (Examples.world ["GET /a App.A"; "* /b App.B"]) 1
                  "conf/routes" false
  = Some ([NewRoute "GET" "/a" "App.A" EmptyString "conf/routes" 0;
           NewRoute "*" "/b" "App.B" EmptyString "conf/routes" 1], None).
Proof.
  apply (validation_only_refuses
           (Examples.world ["GET /a App.A"; "* /b App.B"]) 1 "conf/routes"
           [NewRoute "GET" "/a" "App.A" EmptyString "conf/routes" 0;
            NewRoute "*" "/b" "App.B" EmptyString "conf/routes" 1]).
  vm_compute. reflexivity.
Defined.

(** X20.  Without validation the only error of [parseRoutesFile] is a
    file that cannot be read, the routes file itself or the one of an
    included module: the error comes with no routes, has the title
    [Failed to load routes file] and the text of the read error, and
    names no path, no line and no source lines. *)
Theorem unvalidated_error_is_load_error
        (W : World) (fuel : nat) (routesPath : string)
        (routes : list Route.t) (err : Error.t) :
  parseRoutesFile W fuel routesPath false = Some (routes, Some err) ->
  routes = [] /\
  exists file description,
    ReadFile W file = inr description /\
    err = Error.mk "Failed to load routes file" description EmptyString 0 [].
Proof.
  revert routesPath routes err.
  induction fuel as [|fuel IH]; intros routesPath routes err; [done|].
  cbn [parseRoutesFile].
  destruct (ReadFile W routesPath) as [content|description] eqn:Hread.
  - unfold parseRoutesWith. apply parseLines_unvalidated_error.
    intros name rs e. unfold getModuleRoutesWith.
    destruct (ModuleByName W name); [|done]. by intros [_ He]%IH.
  - intros [= <- <-]. split; [done|]. by exists routesPath, description.
Qed.

(** A routes file that includes the module [shop], whose routes file is
    missing. *)
Lemma unvalidated_error_is_load_error_witness :
  let W := mkWorld (fun file => if String.eqb file "conf/routes"
                                then inl (Examples.file ["GET / App.Index";
                                                         "module:shop"])
                                else inr "no such file or directory")
                   (fun name => if String.eqb name "shop"
                                then Some "modules/shop" else None)
                   (fun _ _ => None) in
  @nil Route.t = [] /\
  exists file description,
    ReadFile W file = inr description /\
    Error.mk "Failed to load routes file" "no such file or directory"
             EmptyString 0 []
    = Error.mk "Failed to load routes file" description EmptyString 0 [].
Proof.
  intros W.
  apply (unvalidated_error_is_load_error W 2 "conf/routes" []).
  vm_compute. reflexivity.
Defined.

(** ** Errors of the registration *)


